(** * PerformancePulseDashboard: the backend pipeline of [backend/app.py]

    A shallow embedding of the module-level script of [app.py] (ingest,
    derive, materialize, aggregate) and of its three Flask handlers
    ([get_data], [get_metrics], [get_department_stats]), with the pandas
    operations they call.

    Numbers.  A float64 is idealised as an exact rational, one of the two
    infinities, or NaN: no rounding, no overflow, no signed zero.  Python
    ints ([0], [1], [10]) are the same numbers.

    Text.  pandas' CSV type inference only asks of a field whether it
    spells a number; the spelling itself (and with it the formatting and
    parsing of floats) is not modelled, so a text that spells a number is
    kept by the number it denotes ([Numeral]) and every other text by its
    characters ([Word]).  Text columns are columns of Python objects (the
    default of pandas 1 and 2); boolean columns are not modelled. *)

From Stdlib Require Import QArith Qcanon Qround.
From stdpp Require Import base numbers strings pretty list gmap.
From Stdlib Require OrderedTypeEx.
From stdpp Require Import sorting.

(** ** Numbers, texts and cell values *)

Inductive float :=
  | Fin (q : Qc)
  | Inf (neg : bool)
  | NaN.

Inductive text :=
  | Numeral (x : float)
  | Word (s : string).

Inductive value :=
  | Float (x : float)
  | Str (t : text).

#[global] Instance float_eq_dec : EqDecision float.
Proof. solve_decision. Defined.
#[global] Instance text_eq_dec : EqDecision text.
Proof. solve_decision. Defined.
#[global] Instance value_eq_dec : EqDecision value.
Proof. solve_decision. Defined.

Definition qc (q : Q) : float := Fin (Q2Qc q).

(** [pd.isna] on a float. *)
Definition isnan (x : float) : bool :=
  match x with NaN => true | _ => false end.

(** [x >= y] on floats: every comparison with NaN is false. *)
Definition float_ge (x y : float) : bool :=
  match x, y with
  | NaN, _ | _, NaN => false
  | Inf false, _ => true
  | _, Inf true => true
  | Inf true, _ => false
  | _, Inf false => false
  | Fin a, Fin b => bool_decide (b ≤ a)%Qc
  end.

(** [x > y] on floats. *)
Definition float_gt (x y : float) : bool :=
  match x, y with
  | NaN, _ | _, NaN => false
  | _, _ => negb (float_ge y x)
  end.

Definition float_add (x y : float) : float :=
  match x, y with
  | NaN, _ | _, NaN => NaN
  | Inf a, Inf b => if bool_decide (a = b) then Inf a else NaN
  | Inf a, Fin _ | Fin _, Inf a => Inf a
  | Fin a, Fin b => Fin (a + b)%Qc
  end.

Definition float_mul (x y : float) : float :=
  match x, y with
  | NaN, _ | _, NaN => NaN
  | Inf a, Inf b => Inf (xorb a b)
  | Inf a, Fin q | Fin q, Inf a =>
      if bool_decide (q = 0)%Qc then NaN else Inf (xorb a (bool_decide (q < 0)%Qc))
  | Fin a, Fin b => Fin (a * b)%Qc
  end.

(** numpy's true division: a zero divisor gives an infinity (NaN for 0/0),
    it does not raise. *)
Definition float_div (x y : float) : float :=
  match x, y with
  | NaN, _ | _, NaN => NaN
  | Inf _, Inf _ => NaN
  | Inf a, Fin q => Inf (xorb a (bool_decide (q < 0)%Qc))
  | Fin _, Inf _ => Fin 0
  | Fin a, Fin b =>
      if bool_decide (b = 0)%Qc then
        (if bool_decide (a = 0)%Qc then NaN else Inf (bool_decide (a < 0)%Qc))
      else Fin (a / b)%Qc
  end.

(** [round(x, 2)]: to the nearest multiple of 1/100, a tie to the even one;
    infinities and NaN are returned as they are. *)
Definition round2 (x : float) : float :=
  match x with
  | Fin q =>
      let z := (q * Q2Qc 100)%Qc in
      let f := Qfloor z in
      let r := (z - Q2Qc (inject_Z f))%Qc in
      let n := if bool_decide (r < Q2Qc (1 # 2))%Qc then f
               else if bool_decide (Q2Qc (1 # 2) < r)%Qc then (f + 1)%Z
               else if Z.even f then f else (f + 1)%Z in
      Fin (Q2Qc (inject_Z n) / Q2Qc 100)%Qc
  | _ => x
  end.

(** ** Exceptions *)

Inductive exn :=
  | FileNotFoundError (path : string)
  | EmptyDataError
  | ParserError
  | KeyError (key : string)
  | TypeError
  | ValueError.

#[global] Instance exn_eq_dec : EqDecision exn.
Proof. solve_decision. Defined.

(** The class name of an exception, as [type(e).__name__]. *)
Definition exn_name (e : exn) : string :=
  match e with
  | FileNotFoundError _ => "FileNotFoundError"
  | EmptyDataError => "EmptyDataError"
  | ParserError => "ParserError"
  | KeyError _ => "KeyError"
  | TypeError => "TypeError"
  | ValueError => "ValueError"
  end.

Inductive result (A : Type) :=
  | Ok (a : A)
  | Raise (e : exn).
Arguments Ok {A} a.
Arguments Raise {A} e.

#[global] Instance result_eq_dec {A} `{EqDecision A} : EqDecision (result A).
Proof. solve_decision. Defined.

Definition rbind {A B} (r : result A) (k : A → result B) : result B :=
  match r with
  | Ok a => k a
  | Raise e => Raise e
  end.

Declare Scope result_scope.
Delimit Scope result_scope with result.
Notation "x <- r ;; k" := (rbind r (fun x => k))
  (at level 100, r at next level, right associativity) : result_scope.

(** [[f(x) for x in xs]] where [f] may raise: the first exception wins. *)
Fixpoint rmap {A B} (f : A → result B) (xs : list A) : result (list B) :=
  match xs with
  | [] => Ok []
  | x :: xs' =>
      (y <- f x ;; ys <- rmap f xs' ;; Ok (y :: ys))%result
  end.

(** ** Data frames

    A [DataFrame] with the default [RangeIndex]: its column labels in
    order and its rows in order, every row with one cell per column.  A
    [Series] taken from it is the list of the cells of one column. *)

Record frame := Frame {
  columns : list string;
  rows : list (list value)
}.

#[global] Instance frame_eq_dec : EqDecision frame.
Proof. solve_decision. Defined.
#[global] Instance frame_inhabited : Inhabited frame := populate (Frame [] []).

Abbreviation series := (list value).

(** [len(df)]. *)
Definition frame_len (t : frame) : nat := length (rows t).

(** Every row has one cell per column. *)
Definition well_formed (t : frame) : Prop :=
  Forall (λ r, length r = length (columns t)) (rows t).

(** The position of the first column labelled [c]. *)
Fixpoint index_of (c : string) (cs : list string) : option nat :=
  match cs with
  | [] => None
  | c' :: cs' => if bool_decide (c' = c) then Some 0 else S <$> index_of c cs'
  end.

(** The cell of a row at a column position; a cell that is not there
    reads as missing. *)
Definition cell (i : nat) (r : list value) : value :=
  default (Float NaN) (r !! i).

(** [df[c]]: [KeyError] when no column is labelled [c]. *)
Definition getitem (c : string) (t : frame) : result series :=
  match index_of c (columns t) with
  | Some i => Ok (cell i <$> rows t)
  | None => Raise (KeyError c)
  end.

(** [df[c] = s], for a series [s] over the index of [df]: an existing
    column is overwritten where it stands, a new one is appended as the
    last column. *)
Definition setitem (c : string) (s : series) (t : frame) : frame :=
  match index_of c (columns t) with
  | Some i => Frame (columns t) (zip_with (λ r v, <[i:=v]> r) (rows t) s)
  | None => Frame (columns t ++ [c]) (zip_with (λ r v, r ++ [v]) (rows t) s)
  end.

(** [df.fillna(v)]: every missing cell, of every column, becomes [v]. *)
Definition fill (v : value) (x : value) : value :=
  match x with
  | Float NaN => v
  | _ => x
  end.

Definition fillna (v : value) (t : frame) : frame :=
  Frame (columns t) (map (map (fill v)) (rows t)).

(** [s.replace(a, b)]: the cells equal to [a] become [b]. *)
Definition replace (a b : value) (s : series) : series :=
  map (λ x, if bool_decide (x = a) then b else x) s.

(** One cell of [s1 / s2]: dividing by or into a [str] raises. *)
Definition value_div (a b : value) : result float :=
  match a, b with
  | Float x, Float y => Ok (float_div x y)
  | _, _ => Raise TypeError
  end.

(** [s1 / s2], cell by cell. *)
Definition truediv (s1 s2 : series) : result (list float) :=
  rmap (λ p, value_div p.1 p.2) (zip s1 s2).

(** [s * k] on a numeric series. *)
Definition mul_scalar (s : list float) (k : float) : list float :=
  map (λ x, float_mul x k) s.

(** [s.apply(f)]. *)
Definition apply (f : value → result value) (s : series) : result series :=
  rmap f s.

(** [lambda x: 'High' if x >= 4.5 else 'Medium' if x >= 3.5 else 'Low'];
    comparing a [str] with a float raises [TypeError]. *)
Definition performance_level (x : value) : result value :=
  match x with
  | Float f =>
      Ok (Str (Word (if float_ge f (qc 4.5) then "High"
                     else if float_ge f (qc 3.5) then "Medium"
                     else "Low")))
  | Str _ => Raise TypeError
  end.

(** A cell taken as a number by a reduction: a [str] cell raises. *)
Definition as_float (x : value) : result float :=
  match x with
  | Float f => Ok f
  | Str _ => Raise TypeError
  end.

Definition float_sum (xs : list float) : float :=
  foldl float_add (Fin 0) xs.

Definition float_mean (xs : list float) : float :=
  let ys := filter (λ x, isnan x = false) xs in
  match ys with
  | [] => NaN
  | _ => float_div (float_sum ys) (Fin (Q2Qc (inject_Z (Z.of_nat (length ys)))))
  end.

(** [s.mean()]: missing cells are skipped; NaN when nothing is left. *)
Definition mean (s : series) : result float :=
  (xs <- rmap as_float s ;; Ok (float_mean xs))%result.

(** The position of the first greatest element that is not NaN, starting
    from a best candidate found so far. *)
Fixpoint argmax_from {K} (best : option (K * float)) (xs : list (K * float))
  : option (K * float) :=
  match xs with
  | [] => best
  | (k, x) :: xs' =>
      let best' :=
        if isnan x then best
        else match best with
             | None => Some (k, x)
             | Some (_, b) => if float_gt x b then Some (k, x) else best
             end in
      argmax_from best' xs'
  end.

(** [s.idxmax()] over labelled numbers: the label of the first maximum,
    [ValueError] when there is none to take (an empty series; for one
    that is all NaN the pandas at hand decides, taken here to raise). *)
Definition idxmax_labelled {K} (xs : list (K * float)) : result K :=
  match argmax_from None xs with
  | Some (k, _) => Ok k
  | None => Raise ValueError
  end.

(** [s.idxmax()] on a column: the labels are the row positions. *)
Definition idxmax (s : series) : result nat :=
  (xs <- rmap as_float s ;; idxmax_labelled (imap (λ i x, (i, x)) xs))%result.

(** ** Grouping *)

(** The order in which [groupby] sorts its keys: numbers by value and
    before texts; a text that spells a number before the other texts (its
    spelling starts with a digit, a sign or a point), these by code point. *)
Definition text_lt (a b : text) : bool :=
  match a, b with
  | Numeral x, Numeral y => float_gt y x
  | Numeral _, Word _ => true
  | Word _, Numeral _ => false
  | Word s, Word s' => String.ltb s s'
  end.

Definition key_lt (a b : value) : bool :=
  match a, b with
  | Float x, Float y => float_gt y x
  | Float _, Str _ => true
  | Str _, Float _ => false
  | Str s, Str s' => text_lt s s'
  end.

(** Adds the cell [v] of a row keyed [k] to the groups, these kept sorted
    by key and each in row order. *)
Fixpoint group_insert (k v : value) (gs : list (value * series))
  : list (value * series) :=
  match gs with
  | [] => [(k, [v])]
  | (k', vs) :: gs' =>
      if bool_decide (k' = k) then (k', vs ++ [v]) :: gs'
      else if key_lt k k' then (k, [v]) :: gs
      else (k', vs) :: group_insert k v gs'
  end.

(** The groups of [vals] by [keys]; rows whose key is missing are dropped
    ([dropna=True]). *)
Definition groups (keys vals : series) : list (value * series) :=
  foldl (λ gs kv,
           match kv.1 with
           | Float NaN => gs
           | k => group_insert k kv.2 gs
           end) [] (zip keys vals).

(** [df.groupby(k)[c].mean()]: the mean of column [c] for each value of
    column [k], sorted by that value. *)
Definition groupby_mean (k c : string) (t : frame)
  : result (list (value * float)) :=
  (keys <- getitem k t ;;
   vals <- match getitem c t with
           | Ok s => Ok s
           | Raise _ => Raise (KeyError ("Column not found: " +:+ c))
           end ;;
   rmap (λ g, m <- mean g.2 ;; Ok (g.1, m)) (groups keys vals))%result.

(** [df.loc[i, c]]: the column is looked up first, then the row. *)
Definition loc_at (i : nat) (c : string) (t : frame) : result value :=
  (s <- getitem c t ;;
   match s !! i with
   | Some v => Ok v
   | None => Raise (KeyError (pretty i))
   end)%result.

(** ** CSV files

    A file is its header and its lines of fields, after the CSV tokenizer
    (delimiters and quoting are not modelled).  The header is kept by the
    labels [read_csv] gives the columns (it renames blank and repeated
    names, so that these are distinct).  A line with no field at all is a
    blank line. *)

Record csv := Csv {
  header : list string;
  lines : list (list text)
}.

#[global] Instance csv_eq_dec : EqDecision csv.
Proof. solve_decision. Defined.

(** The fields [read_csv] takes as missing (pandas' default [na_values]). *)
Definition na_values : list string :=
  [ ""; "#N/A"; "#N/A N/A"; "#NA"; "-1.#IND"; "-1.#QNAN"; "-NaN"; "-nan";
    "1.#IND"; "1.#QNAN"; "<NA>"; "N/A"; "NA"; "NULL"; "NaN"; "None"; "n/a";
    "nan"; "null" ].

Definition is_na (f : text) : bool :=
  match f with
  | Numeral x => isnan x
  | Word s => bool_decide (s ∈ na_values)
  end.

Definition is_numeral (f : text) : bool :=
  match f with
  | Numeral _ => true
  | Word _ => false
  end.

(** The field of a line at a column position; a short line is padded with
    missing fields. *)
Definition field (j : nat) (l : list text) : text :=
  default (Word "") (l !! j).

(** A column is read as numbers when every field is a numeral or missing. *)
Definition numeric_column (ls : list (list text)) (j : nat) : bool :=
  forallb (λ l, is_na (field j l) || is_numeral (field j l)) ls.

(** The cell read from a field, in a numeric column or in a column of
    objects (where a numeral stays the text it is). *)
Definition parse_field (numeric : bool) (f : text) : value :=
  if is_na f then Float NaN
  else match f with
       | Numeral x => if numeric then Float x else Str f
       | Word _ => Str f
       end.

(** [pd.read_csv] on the contents of a file.  Blank lines are skipped; a
    file with no column raises [EmptyDataError]; a line with more fields
    than the header raises [ParserError] (the case where pandas takes the
    leading fields of over-long lines as an index is not modelled). *)
Definition read_csv_text (c : csv) : result frame :=
  match header c with
  | [] => Raise EmptyDataError
  | _ =>
      let n := length (header c) in
      let ls := filter (λ l, l ≠ []) (lines c) in
      if forallb (λ l, bool_decide (length l ≤ n)) ls then
        Ok (Frame (header c)
              (map (λ l, map (λ j, parse_field (numeric_column ls j) (field j l))
                             (seq 0 n)) ls))
      else Raise ParserError
  end.

(** The field written for a cell: a missing cell is written empty. *)
Definition render (v : value) : text :=
  match v with
  | Float NaN => Word ""
  | Float x => Numeral x
  | Str t => t
  end.

(** [df.to_csv(path, index=False)], the contents written. *)
Definition to_csv_text (t : frame) : csv :=
  Csv (columns t) (map (map render) (rows t)).

(** [df.to_dict(orient='records')]: one dict per row, from column label to
    cell, in column order. *)
Definition to_records (t : frame) : list (list (string * value)) :=
  map (λ r, zip (columns t) r) (rows t).

(** ** The process and its files

    The file system maps a path to the contents of the file there.  Data
    frames are objects: a variable holds a reference into the heap, and
    [inplace=True] and column assignment update the object referred to. *)

Record world := World {
  fs : gmap string csv;
  heap : list frame;
  stdout : list string
}.

Definition M (A : Type) : Type := world → result A * world.

Definition ret {A} (a : A) : M A := λ w, (Ok a, w).

Definition bind {A B} (m : M A) (k : A → M B) : M B :=
  λ w, match m w with
       | (Ok a, w') => k a w'
       | (Raise e, w') => (Raise e, w')
       end.

Definition lift {A} (r : result A) : M A := λ w, (r, w).

Declare Scope py_scope.
Delimit Scope py_scope with py.
Notation "x <- m ;; k" := (bind m (fun x => k))
  (at level 100, m at next level, right associativity) : py_scope.

(** A new data frame object, and the reference to it. *)
Definition new_frame (t : frame) : M nat :=
  λ w, (Ok (length (heap w)), World (fs w) (heap w ++ [t]) (stdout w)).

(** The object a reference points to. *)
Definition deref (l : nat) : M frame := λ w, (Ok (heap w !!! l), w).

(** Updates the object a reference points to, in place. *)
Definition update (l : nat) (f : frame → frame) : M unit :=
  λ w, (Ok (), World (fs w) (<[l := f (heap w !!! l)]> (heap w)) (stdout w)).

(** [pd.read_csv(path)]. *)
Definition pd_read_csv (path : string) : M nat :=
  λ w, match fs w !! path with
       | None => (Raise (FileNotFoundError path), w)
       | Some c => (t <- lift (read_csv_text c) ;; new_frame t)%py w
       end.

(** [df.fillna(v, inplace=True)]. *)
Definition df_fillna_inplace (df : nat) (v : value) : M unit :=
  update df (fillna v).

(** [df[c]]. *)
Definition df_getitem (df : nat) (c : string) : M series :=
  (t <- deref df ;; lift (getitem c t))%py.

(** [df[c] = s]. *)
Definition df_setitem (df : nat) (c : string) (s : series) : M unit :=
  update df (setitem c s).

(** [df.to_csv(path, index=False)]: the file at [path] is written anew. *)
Definition df_to_csv (df : nat) (path : string) : M unit :=
  λ w, (Ok (), World (<[path := to_csv_text (heap w !!! df)]> (fs w)) (heap w) (stdout w)).

Definition print (s : string) : M unit :=
  λ w, (Ok (), World (fs w) (heap w) (stdout w ++ [s])).

(** ** The aggregates, as expressions over the frame [df] refers to *)

(** [round(df[c].mean(), 2)]. *)
Definition average (c : string) (t : frame) : result float :=
  (s <- getitem c t ;; m <- mean s ;; Ok (round2 m))%result.

(** [df.loc[df['PerformanceScore'].idxmax(), 'Name']]. *)
Definition top_performer_of (t : frame) : result value :=
  (s <- getitem "PerformanceScore" t ;;
   i <- idxmax s ;;
   loc_at i "Name" t)%result.

(** [df.groupby('Department')['PerformanceScore'].mean().idxmax()]. *)
Definition top_department_of (t : frame) : result value :=
  (gm <- groupby_mean "Department" "PerformanceScore" t ;;
   idxmax_labelled gm)%result.

(** [int((df['Performance_Level'] == 'High').sum())]. *)
Definition high_performers_of (t : frame) : result nat :=
  (s <- getitem "Performance_Level" t ;;
   Ok (length (filter (λ x, x = Str (Word "High")) s)))%result.

(** ** The module-level script of [app.py] *)

Definition source_path : string := "employee_performance_200.csv".
Definition store_path : string := "processed_data.csv".

(** Lines 8-11: load the dataset and handle missing values. *)
Definition ingest (path : string) : M nat :=
  (df <- pd_read_csv path ;;
   _ <- df_fillna_inplace df (Float (Fin 0)) ;;
   ret df)%py.

(** Lines 14-17: the derived metrics, assigned as columns of [df]. *)
Definition derive (df : nat) : M unit :=
  (p <- df_getitem df "ProjectsCompleted" ;;
   e <- df_getitem df "ExperienceYears" ;;
   q <- lift (truediv p (replace (Float (Fin 0)) (Float (Fin 1)) e)) ;;
   _ <- df_setitem df "Efficiency (%)" (Float <$> mul_scalar q (qc 10)) ;;
   s <- df_getitem df "PerformanceScore" ;;
   lv <- lift (apply performance_level s) ;;
   df_setitem df "Performance_Level" lv)%py.

(** Lines 20-21: save the cleaned dataset. *)
Definition materialize (df : nat) : M unit :=
  (_ <- df_to_csv df store_path ;;
   print "✅ Data cleaned and processed successfully!")%py.

(** The module globals bound by the script. *)
Record globals := Globals {
  g_df : nat;
  g_avg_perf : float;
  g_avg_salary : float;
  g_avg_attendance : float;
  g_top_performer : value;
  g_top_dept : value
}.

(** Lines 26-30: the core metrics computed at start-up. *)
Definition core_metrics (df : nat) : M globals :=
  (t <- deref df ;;
   avg_perf <- lift (average "PerformanceScore" t) ;;
   avg_salary <- lift (average "MonthlySalary" t) ;;
   avg_attendance <- lift (average "AttendanceRate (%)" t) ;;
   top_performer <- lift (top_performer_of t) ;;
   top_dept <- lift (top_department_of t) ;;
   ret (Globals df avg_perf avg_salary avg_attendance top_performer top_dept))%py.

(** Lines 8-21, up to the saved dataset. *)
Definition pipeline : M nat :=
  (df <- ingest source_path ;;
   _ <- derive df ;;
   _ <- materialize df ;;
   ret df)%py.

Definition main : M globals :=
  (df <- pipeline ;;
   core_metrics df)%py.

(** ** The Flask handlers

    Each handler binds a local [df] to a frame freshly read from the store;
    the module globals are in scope but shadowed or unused.  The value
    handed to [jsonify] is the response (the JSON encoding is Flask's). *)

(** The dict built by [get_metrics], by key. *)
Record metrics := Metrics {
  average_performance_score : float;
  average_salary : float;
  average_attendance : float;
  top_performer : value;
  top_department : value;
  high_performers_count : nat;
  total_employees : nat
}.

#[global] Instance metrics_eq_dec : EqDecision metrics.
Proof. solve_decision. Defined.

(** The entries of the [metrics] dict, evaluated in the order written. *)
Definition metrics_of (t : frame) : result metrics :=
  (a <- average "PerformanceScore" t ;;
   b <- average "MonthlySalary" t ;;
   c <- average "AttendanceRate (%)" t ;;
   p <- top_performer_of t ;;
   d <- top_department_of t ;;
   h <- high_performers_of t ;;
   Ok (Metrics a b c p d h (frame_len t)))%result.

(** [/api/data]. *)
Definition get_data (g : globals) : M (list (list (string * value))) :=
  (df <- pd_read_csv store_path ;;
   t <- deref df ;;
   ret (to_records t))%py.

(** [/api/metrics]. *)
Definition get_metrics (g : globals) : M metrics :=
  (df <- pd_read_csv store_path ;;
   t <- deref df ;;
   lift (metrics_of t))%py.

(** [/api/department]: [groupby(...).mean().round(2).to_dict()]. *)
Definition department_stats_of (t : frame) : result (list (value * float)) :=
  (gm <- groupby_mean "Department" "PerformanceScore" t ;;
   Ok (map (λ g, (g.1, round2 g.2)) gm))%result.

Definition get_department_stats (g : globals) : M (list (value * float)) :=
  (df <- pd_read_csv store_path ;;
   t <- deref df ;;
   lift (department_stats_of t))%py.

(** ** A small dataset: the two employees of the specification's scenario *)

Definition num (q : Q) : text := Numeral (qc q).

Definition employee_header : list string :=
  [ "Name"; "Department"; "ExperienceYears"; "ProjectsCompleted";
    "MonthlySalary"; "AttendanceRate (%)"; "PerformanceScore" ].

Definition two_employees : csv :=
  Csv employee_header
    [ [ Word "A"; Word "Eng"; num 0; num 5; num 1000; num 90; num 4.6 ];
      [ Word "B"; Word "Eng"; num 2; num 4; num 2000; num 80; num 3.0 ] ].

Definition world_of (c : csv) : world :=
  World {[ source_path := c ]} [] [].

(** An employee with half a year of experience and one project, and one
    with a negative experience entry. *)
Definition odd_experience : csv :=
  Csv employee_header
    [ [ Word "C"; Word "Ops"; num 0.5; num 1; num 1000; num 90; num 4.0 ];
      [ Word "D"; Word "Ops"; num (-2); num 4; num 1000; num 90; num 4.0 ] ].

(** The dataset with its header and no employee. *)
Definition no_employees : csv := Csv employee_header [].

(** A file with a single column. *)
Definition names_only : csv := Csv [ "Name" ] [ [ Word "A" ]; [ Word "B" ] ].

(** The two employees, the name of the second left blank. *)
Definition blank_name : csv :=
  Csv employee_header
    [ [ Word "A"; Word "Eng"; num 0; num 5; num 1000; num 90; num 4.6 ];
      [ Word ""; Word "Eng"; num 2; num 4; num 2000; num 80; num 3.0 ] ].

(** A dataset that already has a column labelled [Performance_Level]. *)
Definition labelled_already : csv :=
  Csv [ "ExperienceYears"; "ProjectsCompleted"; "PerformanceScore"; "Performance_Level" ]
    [ [ num 1; num 2; num 4.0; Word "?" ] ].

(** Globals as a process may hold them; the handlers never look. *)
Definition some_globals : globals :=
  Globals 0 NaN NaN NaN (Float NaN) (Float NaN).

(** ** The formulas of the specification, for comparison *)

(** [ProjectsCompleted / max(ExperienceYears, 1) * 10]. *)
Definition spec_efficiency (p e : Qc) : Qc :=
  (p / (if bool_decide (e ≤ 1)%Qc then 1 else e) * Q2Qc 10)%Qc.

(** The divisor the code uses: [ExperienceYears.replace(0, 1)]. *)
Definition code_efficiency (p e : Qc) : Qc :=
  (p / (if bool_decide (e = 0)%Qc then 1 else e) * Q2Qc 10)%Qc.

(** ** Tables that a CSV file holds as they are

    A cell is plain when it is a number, or a text that spells neither a
    number nor a missing value; a table is uniform when each of its
    columns holds only numbers or only such texts. *)

Definition is_number (v : value) : bool :=
  match v with
  | Float x => negb (isnan x)
  | Str _ => false
  end.

Definition is_word (v : value) : bool :=
  match v with
  | Str (Word s) => bool_decide (s ∉ na_values)
  | _ => false
  end.

Definition uniform_column (t : frame) (j : nat) : bool :=
  forallb (λ r, is_number (cell j r)) (rows t)
  || forallb (λ r, is_word (cell j r)) (rows t).

Definition uniform (t : frame) : bool :=
  forallb (uniform_column t) (seq 0 (length (columns t))).

(** A dataset without the [MonthlySalary] column. *)
Definition no_salary : csv :=
  Csv [ "Name"; "Department"; "ExperienceYears"; "ProjectsCompleted";
        "AttendanceRate (%)"; "PerformanceScore" ]
    [ [ Word "A"; Word "Eng"; num 0; num 5; num 90; num 4.6 ] ].

(** The process after each stage of the script on the two employees. *)
Definition two_loaded : world := (ingest source_path (world_of two_employees)).2.
Definition two_derived : world := (derive 0 two_loaded).2.
Definition two_stored : world := (pipeline (world_of two_employees)).2.

(** The same store in another process: other globals, other objects. *)
Definition two_restarted : world :=
  World (fs two_stored) [Frame [] []] ["restarted"].
Definition other_globals : globals :=
  Globals 7 (qc 1) (qc 2) (qc 3) (Str (Word "Z")) (Str (Word "Y")).

(** The metrics of the two employees. *)
Definition two_metrics : metrics :=
  Metrics (qc 3.8) (qc 1500) (qc 85) (Str (Word "A")) (Str (Word "Eng")) 1 2.

(** The table derived from the employees with odd experience entries. *)
Definition odd_derived : frame :=
  heap (derive 0 (ingest source_path (world_of odd_experience)).2).2 !!! 0.

(** The process after the pipeline ran on the dataset with a blank name. *)
Definition blank_stored : world := (pipeline (world_of blank_name)).2.

(** A store that holds the header of a derived dataset and no record. *)
Definition empty_store : world :=
  World {[ store_path :=
             Csv (employee_header ++ ["Efficiency (%)"; "Performance_Level"]) [] ]}
    [] [].

(** ** The derivation, read on the table itself

    What lines 14-17 do to the table [df] refers to: the outcome, and the
    table as it is left (with [Efficiency (%)] already assigned when the
    second assignment raises). *)
Definition derive_table (t : frame) : result unit * frame :=
  match getitem "ProjectsCompleted" t with
  | Raise x => (Raise x, t)
  | Ok p =>
      match getitem "ExperienceYears" t with
      | Raise x => (Raise x, t)
      | Ok e =>
          match truediv p (replace (Float (Fin 0)) (Float (Fin 1)) e) with
          | Raise x => (Raise x, t)
          | Ok q =>
              let t' := setitem "Efficiency (%)" (Float <$> mul_scalar q (qc 10)) t in
              match getitem "PerformanceScore" t' with
              | Raise x => (Raise x, t')
              | Ok s =>
                  match apply performance_level s with
                  | Raise x => (Raise x, t')
                  | Ok lv => (Ok (), setitem "Performance_Level" lv t')
                  end
              end
          end
      end
  end.

(** ** Cells, as the readers of a table tell them apart *)

(** [x >= 4.5] on a cell of [PerformanceScore], as the lambda of line 16
    decides [High]. *)
Definition scores_high (v : value) : bool :=
  match v with
  | Float x => float_ge x (qc 4.5)
  | Str _ => false
  end.

(** A text cell that [read_csv] would take for a missing value. *)
Definition na_text (v : value) : bool :=
  match v with
  | Float _ => false
  | Str t => is_na t
  end.

(** No cell of the table is such a text. *)
Definition no_na_text (t : frame) : Prop :=
  Forall (Forall (λ v, na_text v = false)) (rows t).

(** ** Groups, as a reader of the department means sees them *)

(** A value that can be a group key with a place in the order: a number
    that is not NaN, or a text (which, read from a file, never spells
    NaN). *)
Definition valid_key (v : value) : bool :=
  match v with
  | Float x => negb (isnan x)
  | Str (Numeral x) => negb (isnan x)
  | Str (Word _) => true
  end.

(** The cells of [vals] on the rows whose key is [k], in row order. *)
Definition members (k : value) (keys vals : series) : series :=
  (filter (λ kv, kv.1 = k) (zip keys vals)).*2.

(** The candidate kept while [idxmax] scans: none when every number seen
    is missing, else the position of a number that is at least every
    number seen and greater than every one seen before it. *)
Definition first_max (seen : list float) (best : option (nat * float)) : Prop :=
  match best with
  | None => Forall (λ x, isnan x = true) seen
  | Some (k, m) =>
      seen !! k = Some m ∧ isnan m = false
      ∧ ∀ j x, seen !! j = Some x → isnan x = false →
               float_ge m x = true ∧ (j < k → float_gt m x = true)
  end.

(** * The dashboard of [dashboard/dashboard_app.py]

    The pieces of the Streamlit script that compute: the sentiment labels,
    the filters, the salary tile and the PDF export.  The widgets are the
    user's input and are taken as arguments; what is drawn is outside the
    model. *)

(** ** Sentiment labels *)

(** Line 47, the label of one feedback by its polarity [s]:
    ["Positive" if s > 0.2 else ("Negative" if s < -0.2 else "Neutral")]. *)
Definition sentiment_label (s : float) : string :=
  if float_gt s (qc 0.2) then "Positive"
  else if float_gt (qc (-0.2)) s then "Negative"
  else "Neutral".

(** Line 133, the label of the average polarity of the selection:
    ["😊 Positive" if avg > 0.2 else ("😐 Neutral" if avg > -0.2 else
    "😞 Negative")]. *)
Definition average_sentiment_label (avg : float) : string :=
  if float_gt avg (qc 0.2) then "😊 Positive"
  else if float_gt avg (qc (-0.2)) then "😐 Neutral"
  else "😞 Negative".

(** ** Filters *)

(** [a == b] on cells: NaN equals nothing, a number never equals a text. *)
Definition cell_eq (a b : value) : bool :=
  match a, b with
  | Float NaN, _ | _, Float NaN => false
  | _, _ => bool_decide (a = b)
  end.

(** [t[mask]]: the rows where the mask is true. *)
Definition select (mask : list bool) (t : frame) : frame :=
  Frame (columns t) ((filter (λ rm, rm.2 = true) (zip (rows t) mask)).*1).

(** [s >= k] and [s <= k] on one cell: a text cell raises. *)
Definition cell_ge (k : float) (v : value) : result bool :=
  match v with
  | Float x => Ok (float_ge x k)
  | Str _ => Raise TypeError
  end.

Definition cell_le (k : float) (v : value) : result bool :=
  match v with
  | Float x => Ok (float_ge k x)
  | Str _ => Raise TypeError
  end.

(** Lines 81-82: the department filter; the choice ["All"] selects every
    row. *)
Definition filter_department (selected : value) (t : frame) : result frame :=
  if bool_decide (selected = Str (Word "All")) then Ok t
  else (d <- getitem "Department" t ;;
        Ok (select (map (λ v, cell_eq v selected) d) t))%result.

Definition of_Z (z : Z) : float := Fin (Q2Qc (inject_Z z)).

(** Lines 83-88: the experience and performance ranges, the four
    comparisons evaluated in the order written. *)
Definition filter_ranges (exp_range : Z * Z) (perf_range : float * float)
    (t : frame) : result frame :=
  (e <- getitem "ExperienceYears" t ;;
   m1 <- rmap (cell_ge (of_Z exp_range.1)) e ;;
   m2 <- rmap (cell_le (of_Z exp_range.2)) e ;;
   p <- getitem "PerformanceScore" t ;;
   m3 <- rmap (cell_ge perf_range.1) p ;;
   m4 <- rmap (cell_le perf_range.2) p ;;
   Ok (select (zip_with andb (zip_with andb (zip_with andb m1 m2) m3) m4) t))%result.

(** Lines 80-88: [filtered]. *)
Definition apply_filters (selected : value) (exp_range : Z * Z)
    (perf_range : float * float) (df : frame) : result frame :=
  (t <- filter_department selected df ;;
   filter_ranges exp_range perf_range t)%result.

(** A row passes the range filters. *)
Definition in_ranges (exp_range : Z * Z) (perf_range : float * float)
    (e p : value) : Prop :=
  ∃ x y, e = Float x ∧ p = Float y
         ∧ float_ge x (of_Z exp_range.1) = true
         ∧ float_ge (of_Z exp_range.2) x = true
         ∧ float_ge y perf_range.1 = true
         ∧ float_ge perf_range.2 y = true.

(** ** The salary tile *)

(** What evaluating a tile can come to: [int] raises [OverflowError] on an
    infinity, which the backend never meets. *)
Inductive tile A :=
  | Shown (a : A)
  | Raised (e : exn)
  | RaisedOverflowError.
Arguments Shown {A} a.
Arguments Raised {A} e.
Arguments RaisedOverflowError {A}.

(** [int(x)] on a float: the fraction is dropped, towards zero. *)
Definition py_int (x : float) : tile Z :=
  match x with
  | Fin q => Shown (if bool_decide (0 ≤ q)%Qc then Qfloor q else Qceiling q)
  | Inf _ => RaisedOverflowError
  | NaN => Raised ValueError
  end.

(** Line 128: [int(filtered['MonthlySalary'].mean())]. *)
Definition avg_salary_tile (filtered : frame) : tile Z :=
  match (s <- getitem "MonthlySalary" filtered ;; mean s)%result with
  | Ok m => py_int m
  | Raise e => Raised e
  end.

(** ** The PDF export *)

(** A text drawn on the canvas.  The department and the rows are formatted
    by Python's [str.format]; the formatted department is kept by its
    value, the formatted row by the string [row_text] gives. *)
Inductive pdf_text :=
  | Text (s : string)
  | DepartmentFilter (selected : value)
  | RowText (s : string).

Inductive canvas_op :=
  | SetFont (name : string) (size : Z)
  | DrawString (x y : Z) (s : pdf_text)
  | ShowPage
  | Save.

Section PdfExport.

(** The f-string of line 103 on a row, which raises when a column is
    absent or a cell does not take the format. *)
Variable row_text : list string → list value → result string.

(** Lines 102-107: draw the rows from height [y] down, a new page when
    [y] falls below 50. *)
Fixpoint draw_rows (cs : list string) (rs : list (list value)) (y : Z)
  : result (list canvas_op) :=
  match rs with
  | [] => Ok []
  | r :: rs' =>
      (s <- row_text cs r ;;
       let y' := (y - 15)%Z in
       rest <- draw_rows cs rs' (if bool_decide (y' < 50)%Z then 770%Z else y') ;;
       Ok (DrawString 50 y (RowText s)
             :: (if bool_decide (y' < 50)%Z then [ShowPage] else []) ++ rest))%result
  end.

(** Lines 93-110: [export_to_pdf(dataframe)], with the [selected_dept]
    it reads from the script; the result is what was drawn. *)
Definition export_to_pdf (selected_dept : value) (dataframe : frame)
  : result (list canvas_op) :=
  (body <- draw_rows (columns dataframe) (take 25 (rows dataframe)) 710 ;;
   Ok ([ SetFont "Helvetica-Bold" 14;
         DrawString 50 770 (Text "Performance Pulse Dashboard - Report");
         SetFont "Helvetica" 10;
         DrawString 50 750 (DepartmentFilter selected_dept);
         DrawString 50 735
           (Text ("Employees Shown: " +:+ pretty (frame_len dataframe))) ]
         ++ body ++ [Save]))%result.

End PdfExport.

(** ** Sample data for the properties above *)

(** An employee whose number of projects is given in words. *)
Definition projects_in_words : csv :=
  Csv employee_header
    [ [ Word "A"; Word "Eng"; num 1; Word "a few"; num 1000; num 90; num 4.6 ] ].

(** The table of the two employees after the pipeline. *)
Definition two_table : frame := heap two_stored !!! 0.

(** The two employees, narrowed to those with a score of at least 4. *)
Definition two_filtered : frame :=
  Frame (columns two_table) (take 1 (rows two_table)).

(** A row text that never raises. *)
Definition name_only_text (cs : list string) (r : list value) : result string :=
  Ok "row".

(** A selection with no row. *)
Definition no_selection : frame := Frame (columns two_table) [].

(** Settles a closed decidable statement by evaluating its decision. *)
Ltac by_evaluation :=
  refine (bool_decide_unpack _ _); vm_compute; exact I.

(** * Properties *)

(** ** Performance levels *)

Lemma thresholds_ordered : (Q2Qc 3.5 ≤ Q2Qc 4.5)%Qc.
Proof. by_evaluation. Qed.

Lemma performance_level_finite (q : Qc) :
  performance_level (Float (Fin q)) =
  Ok (Str (Word (if bool_decide (Q2Qc 4.5 ≤ q)%Qc then "High"
                 else if bool_decide (Q2Qc 3.5 ≤ q)%Qc then "Medium"
                 else "Low"))).
Proof. reflexivity. Qed.

(** C2: every score has exactly one level, and the thresholds 4.5 and 3.5
    split the line without gap or overlap: [High] exactly from 4.5 up,
    [Medium] exactly on [3.5, 4.5), [Low] exactly below 3.5; 4.5 is
    [High], 4.499999 and 3.5 are [Medium], 3.499999 is [Low]. *)
Theorem performance_level_partition :
  (∀ x : float,
      ∃ l, (∀ v, performance_level (Float x) = Ok v ↔ v = Str (Word l))
           ∧ (l = "High" ∨ l = "Medium" ∨ l = "Low"))
  ∧ (∀ q : Qc,
      (performance_level (Float (Fin q)) = Ok (Str (Word "High"))
       ↔ (Q2Qc 4.5 ≤ q)%Qc)
      ∧ (performance_level (Float (Fin q)) = Ok (Str (Word "Medium"))
         ↔ (Q2Qc 3.5 ≤ q)%Qc ∧ (q < Q2Qc 4.5)%Qc)
      ∧ (performance_level (Float (Fin q)) = Ok (Str (Word "Low"))
         ↔ (q < Q2Qc 3.5)%Qc)
      ∧ (∃ l, performance_level (Float (Fin q)) = Ok (Str (Word l))
              ∧ (l = "High" ∨ l = "Medium" ∨ l = "Low")))
  ∧ performance_level (Float (qc 4.5)) = Ok (Str (Word "High"))
  ∧ performance_level (Float (qc 4.499999)) = Ok (Str (Word "Medium"))
  ∧ performance_level (Float (qc 3.5)) = Ok (Str (Word "Medium"))
  ∧ performance_level (Float (qc 3.499999)) = Ok (Str (Word "Low")).
Proof.
  split.
  { intros x. unfold performance_level.
    eexists. split; [intros v; split; [by intros [= <-] | by intros ->] |].
    destruct (float_ge x (qc 4.5)); [auto |].
    destruct (float_ge x (qc 3.5)); auto. }
  split; [| repeat split; vm_compute; reflexivity].
  intros q. rewrite performance_level_finite.
  pose proof thresholds_ordered as Hord.
  destruct (bool_decide_reflect (Q2Qc 4.5 ≤ q)%Qc) as [Hhi | Hhi];
    [| destruct (bool_decide_reflect (Q2Qc 3.5 ≤ q)%Qc) as [Hmid | Hmid]].
  - repeat split; try (intros; discriminate); try done.
    + intros [_ Hlt]. by apply Qclt_not_le in Hlt.
    + intros Hlt. apply Qclt_not_le in Hlt. destruct Hlt.
      by apply Qcle_trans with (Q2Qc 4.5).
    + exists "High". auto.
  - apply Qcnot_le_lt in Hhi.
    repeat split; try (intros; discriminate); try done.
    + intros Hle. by apply Qclt_not_le in Hhi.
    + intros Hlt. by apply Qclt_not_le in Hlt.
    + exists "Medium". auto.
  - apply Qcnot_le_lt in Hhi. apply Qcnot_le_lt in Hmid.
    repeat split; try (intros; discriminate); try done.
    + intros Hle. by apply Qclt_not_le in Hhi.
    + intros [Hle _]. by apply Qclt_not_le in Hmid.
    + exists "Low". auto.
Qed.

(** ** Results *)

Lemma rbind_Ok {A B} (r : result A) (k : A → result B) (b : B) :
  rbind r k = Ok b ↔ ∃ a, r = Ok a ∧ k a = Ok b.
Proof.
  destruct r as [a | e]; simpl; split.
  - eauto.
  - by intros (a' & [= ->] & ?).
  - discriminate.
  - by intros (a' & ? & ?).
Qed.

Lemma rmap_Ok {A B} (f : A → result B) (xs : list A) (ys : list B) :
  rmap f xs = Ok ys ↔ Forall2 (λ x y, f x = Ok y) xs ys.
Proof.
  revert ys. induction xs as [| x xs IH]; intros ys; simpl.
  - split; [intros [= <-]; constructor | by inversion 1].
  - rewrite rbind_Ok. split.
    + intros (y & Hy & Hrest). apply rbind_Ok in Hrest as (ys' & Hys & [= <-]).
      constructor; [done | by apply IH].
    + inversion 1 as [| ? y ? ys' Hy Hys]; subst.
      exists y. split; [done |]. apply rbind_Ok. exists ys'.
      split; [by apply IH | done].
Qed.

Lemma rmap_length {A B} (f : A → result B) (xs : list A) (ys : list B) :
  rmap f xs = Ok ys → length ys = length xs.
Proof. intros H%rmap_Ok. symmetry. by eapply Forall2_length. Qed.

(** ** Column labels *)

Lemma index_of_Some c cs i :
  index_of c cs = Some i → cs !! i = Some c ∧ i < length cs.
Proof.
  revert i. induction cs as [| c' cs IH]; intros i; simpl; [done |].
  case_bool_decide as Hc.
  - intros [= <-]. subst. split; [done | lia].
  - destruct (index_of c cs) as [j |] eqn:Hj; simpl; [| done].
    intros [= <-]. destruct (IH j eq_refl). split; [done | lia].
Qed.

Lemma index_of_None c cs : index_of c cs = None ↔ c ∉ cs.
Proof.
  induction cs as [| c' cs IH]; simpl.
  - split; [intros _; apply not_elem_of_nil | done].
  - case_bool_decide as Hc.
    + subst. split; [done | intros []; left].
    + rewrite not_elem_of_cons. destruct (index_of c cs); simpl.
      * split; [done |]. intros [_ Hn]. by apply IH in Hn.
      * split; [| done]. intros _. split; [congruence | by apply IH].
Qed.

Lemma index_of_app_ne c c' cs :
  c' ≠ c → index_of c (cs ++ [c']) = index_of c cs.
Proof.
  intros Hne. induction cs as [| c0 cs IH]; simpl.
  - by rewrite bool_decide_eq_false_2.
  - case_bool_decide; [done |]. by rewrite IH.
Qed.

Lemma index_of_app_new c cs :
  index_of c cs = None → index_of c (cs ++ [c]) = Some (length cs).
Proof.
  induction cs as [| c0 cs IH]; simpl.
  - by rewrite bool_decide_eq_true_2.
  - case_bool_decide; [done |].
    destruct (index_of c cs); [done |]. intros _. by rewrite IH.
Qed.

Lemma index_of_distinct c c' cs i j :
  c ≠ c' → index_of c cs = Some i → index_of c' cs = Some j → i ≠ j.
Proof.
  intros Hne [Hi _]%index_of_Some [Hj _]%index_of_Some ->. congruence.
Qed.

(** ** Frames *)

Lemma cell_app_l i r v : i < length r → cell i (r ++ [v]) = cell i r.
Proof. intros Hi. unfold cell. by rewrite lookup_app_l. Qed.

Lemma cell_app_new r v : cell (length r) (r ++ [v]) = v.
Proof.
  unfold cell. rewrite lookup_app_r by lia. by rewrite Nat.sub_diag.
Qed.

Lemma cell_insert_eq i r v : i < length r → cell i (<[i:=v]> r) = v.
Proof. intros Hi. unfold cell. by rewrite list_lookup_insert_eq. Qed.

Lemma cell_insert_ne i j r v : i ≠ j → cell j (<[i:=v]> r) = cell j r.
Proof. intros Hi. unfold cell. by rewrite list_lookup_insert_ne. Qed.

Lemma getitem_length c t s : getitem c t = Ok s → length s = frame_len t.
Proof.
  unfold getitem, frame_len. destruct (index_of c (columns t)); [| done].
  intros [= <-]. apply length_fmap.
Qed.

Lemma getitem_Ok c t s :
  getitem c t = Ok s ↔ ∃ i, index_of c (columns t) = Some i ∧ s = cell i <$> rows t.
Proof.
  unfold getitem. destruct (index_of c (columns t)) as [i |]; split.
  - intros [= <-]. eauto.
  - by intros (? & [= <-] & ->).
  - done.
  - by intros (? & ? & ?).
Qed.

Lemma getitem_KeyError c t :
  c ∉ columns t → getitem c t = Raise (KeyError c).
Proof. intros H. unfold getitem. by apply index_of_None in H as ->. Qed.

Lemma getitem_is_Ok c t :
  c ∈ columns t → ∃ s, getitem c t = Ok s.
Proof.
  intros H. unfold getitem. destruct (index_of c (columns t)) eqn:E; [eauto |].
  by apply index_of_None in E.
Qed.

Lemma setitem_len c s t :
  length s = frame_len t → frame_len (setitem c s t) = frame_len t.
Proof.
  unfold setitem, frame_len. intros Hs.
  destruct (index_of c (columns t)); simpl; rewrite length_zip_with; lia.
Qed.

Lemma setitem_well_formed c s t : well_formed t → well_formed (setitem c s t).
Proof.
  unfold well_formed, setitem. intros Hwf.
  destruct (index_of c (columns t)) as [i |]; simpl.
  - revert s. induction Hwf as [| r rs Hr Hrs IH]; intros [| v s]; simpl;
      try constructor; [by rewrite length_insert | apply IH].
  - revert s. induction Hwf as [| r rs Hr Hrs IH]; intros [| v s]; simpl;
      try constructor; [rewrite !length_app; simpl; lia | apply IH].
Qed.

Lemma fmap_zip_with_rows {B} (f : list value → B) (g : list value → value → list value)
    (rs : list (list value)) (s : series) (P : list value → Prop) :
  Forall P rs → length s = length rs →
  (∀ r v, P r → f (g r v) = f r) →
  f <$> zip_with g rs s = f <$> rs.
Proof.
  intros HP Hlen Hf. revert s Hlen.
  induction HP as [| r rs Hr Hrs IH]; intros [| v s] Hlen; simpl in *; try done.
  f_equal; [by apply Hf | apply IH; lia].
Qed.

Lemma fmap_zip_with_series (f : list value → value) (g : list value → value → list value)
    (rs : list (list value)) (s : series) (P : list value → Prop) :
  Forall P rs → length s = length rs →
  (∀ r v, P r → f (g r v) = v) →
  f <$> zip_with g rs s = s.
Proof.
  intros HP Hlen Hf. revert s Hlen.
  induction HP as [| r rs Hr Hrs IH]; intros [| v s] Hlen; simpl in *; try done.
  f_equal; [by apply Hf | apply IH; lia].
Qed.

Lemma getitem_setitem_eq c s t :
  well_formed t → length s = frame_len t → getitem c (setitem c s t) = Ok s.
Proof.
  unfold well_formed, frame_len. intros Hwf Hlen. unfold setitem.
  destruct (index_of c (columns t)) as [i |] eqn:Hi; unfold getitem; simpl.
  - rewrite Hi. f_equal.
    apply fmap_zip_with_series with (P := λ r, length r = length (columns t));
      [done | done |].
    intros r v Hr. apply cell_insert_eq. apply index_of_Some in Hi. lia.
  - rewrite index_of_app_new by done. f_equal.
    apply fmap_zip_with_series with (P := λ r, length r = length (columns t));
      [done | done |].
    intros r v <-. apply cell_app_new.
Qed.

Lemma getitem_setitem_ne c c' s t :
  well_formed t → length s = frame_len t → c ≠ c' →
  getitem c' (setitem c s t) = getitem c' t.
Proof.
  unfold well_formed, frame_len. intros Hwf Hlen Hne. unfold setitem.
  destruct (index_of c (columns t)) as [i |] eqn:Hi; unfold getitem; simpl.
  - destruct (index_of c' (columns t)) as [j |] eqn:Hj; [| done]. f_equal.
    apply fmap_zip_with_rows with (P := λ r, True);
      [by apply Forall_true | done |].
    intros r v _. apply cell_insert_ne. by eapply index_of_distinct.
  - rewrite index_of_app_ne by done.
    destruct (index_of c' (columns t)) as [j |] eqn:Hj; [| done]. f_equal.
    apply fmap_zip_with_rows with (P := λ r, length r = length (columns t));
      [done | done |].
    intros r v Hr. apply cell_app_l. apply index_of_Some in Hj. lia.
Qed.

Lemma setitem_columns c s t :
  columns (setitem c s t) =
  if bool_decide (c ∈ columns t) then columns t else columns t ++ [c].
Proof.
  unfold setitem. destruct (index_of c (columns t)) as [i |] eqn:Hi; simpl.
  - rewrite bool_decide_eq_true_2; [done |].
    apply index_of_Some in Hi as [Hi _]. by eapply list_elem_of_lookup_2.
  - rewrite bool_decide_eq_false_2; [done |]. by apply index_of_None.
Qed.

Lemma fillna_columns v t : columns (fillna v t) = columns t.
Proof. done. Qed.

Lemma fillna_len v t : frame_len (fillna v t) = frame_len t.
Proof. unfold frame_len, fillna. simpl. apply length_map. Qed.

Lemma fillna_well_formed v t : well_formed t → well_formed (fillna v t).
Proof.
  unfold well_formed, fillna. simpl. intros H.
  apply Forall_map. eapply Forall_impl; [done |].
  simpl. intros r Hr. by rewrite length_map.
Qed.

(** After [fillna(0)] no cell within the columns is missing. *)
Lemma fillna_cell t i r :
  well_formed t → i < length (columns t) → r ∈ rows (fillna (Float (Fin 0)) t) →
  cell i r ≠ Float NaN.
Proof.
  unfold well_formed, fillna. simpl. intros Hwf Hi Hr.
  apply list_elem_of_fmap in Hr as (r0 & -> & Hr0).
  rewrite Forall_forall in Hwf. specialize (Hwf r0 Hr0).
  unfold cell. rewrite list_lookup_fmap.
  destruct (r0 !! i) as [v |] eqn:Hv; simpl.
  - by destruct v as [[] |].
  - apply lookup_ge_None in Hv. lia.
Qed.

(** ** Reading a file *)

Lemma read_csv_text_Ok c t :
  read_csv_text c = Ok t →
  columns t = header c ∧ header c ≠ [] ∧ well_formed t
  ∧ frame_len t = length (filter (λ l, l ≠ []) (lines c)).
Proof.
  unfold read_csv_text. destruct (header c) as [| h hs] eqn:Hh; [done |].
  destruct (forallb _ _); [| done]. intros [= <-]. simpl.
  repeat split; [done | |].
  - unfold well_formed. simpl. apply Forall_map, Forall_true.
    intros l. simpl. by rewrite length_map, length_seq.
  - unfold frame_len. simpl. by rewrite length_map.
Qed.

(** ** Running the script *)

Lemma heap_alloc_lookup (h : list frame) t : (h ++ [t]) !!! length h = t.
Proof. by apply list_lookup_total_middle. Qed.

Lemma heap_alloc_update (h : list frame) t t' :
  <[length h := t']> (h ++ [t]) = h ++ [t'].
Proof.
  rewrite insert_app_r_alt by lia. by rewrite Nat.sub_diag.
Qed.

Lemma ingest_unfold path w :
  ingest path w =
  match fs w !! path with
  | None => (Raise (FileNotFoundError path), w)
  | Some c =>
      match read_csv_text c with
      | Ok t => (Ok (length (heap w)),
                 World (fs w) (heap w ++ [fillna (Float (Fin 0)) t]) (stdout w))
      | Raise e => (Raise e, w)
      end
  end.
Proof.
  unfold ingest, bind, pd_read_csv, df_fillna_inplace, update, new_frame, lift, ret.
  destruct (fs w !! path) as [c |]; [| done].
  destruct (read_csv_text c) as [t | e]; [| done]. simpl.
  by rewrite heap_alloc_lookup, heap_alloc_update.
Qed.

Lemma ingest_Ok path w df w1 :
  ingest path w = (Ok df, w1) →
  ∃ c t, fs w !! path = Some c ∧ read_csv_text c = Ok t
         ∧ df = length (heap w)
         ∧ w1 = World (fs w) (heap w ++ [fillna (Float (Fin 0)) t]) (stdout w).
Proof.
  rewrite ingest_unfold. destruct (fs w !! path) as [c |]; [| done].
  destruct (read_csv_text c) as [t | e] eqn:Ht; [| done].
  intros [= <- <-]. eauto 10.
Qed.

Lemma derive_Ok df w w2 :
  df < length (heap w) →
  derive df w = (Ok (), w2) →
  ∃ p e q s lv,
    getitem "ProjectsCompleted" (heap w !!! df) = Ok p
    ∧ getitem "ExperienceYears" (heap w !!! df) = Ok e
    ∧ truediv p (replace (Float (Fin 0)) (Float (Fin 1)) e) = Ok q
    ∧ getitem "PerformanceScore"
        (setitem "Efficiency (%)" (Float <$> mul_scalar q (qc 10)) (heap w !!! df)) = Ok s
    ∧ apply performance_level s = Ok lv
    ∧ w2 = World (fs w)
             (<[df := setitem "Performance_Level" lv
                        (setitem "Efficiency (%)" (Float <$> mul_scalar q (qc 10))
                           (heap w !!! df))]> (heap w))
             (stdout w).
Proof.
  intros Hdf.
  unfold derive, bind, df_getitem, df_setitem, update, deref, lift. simpl.
  destruct (getitem "ProjectsCompleted" _) as [p |] eqn:Hp; [| done].
  destruct (getitem "ExperienceYears" _) as [e |] eqn:He; [| done].
  destruct (truediv _ _) as [q |] eqn:Hq; [| done].
  rewrite (list_lookup_total_insert_eq (heap w) df) by done.
  destruct (getitem "PerformanceScore" _) as [s |] eqn:Hs; [| done].
  destruct (apply _ _) as [lv |] eqn:Hlv; [| done].
  rewrite list_insert_insert_eq.
  intros [= <-]. by exists p, e, q, s, lv.
Qed.

(** ** The efficiency column *)

Lemma truediv_length p e q : truediv p e = Ok q → length q = length p `min` length e.
Proof.
  intros H%rmap_length. rewrite H. apply length_zip_with.
Qed.

Lemma truediv_lookup p e q k a b :
  truediv p e = Ok q → p !! k = Some a → e !! k = Some b →
  ∃ x y, a = Float x ∧ b = Float y ∧ q !! k = Some (float_div x y).
Proof.
  intros H%rmap_Ok Ha Hb.
  assert (zip p e !! k = Some (a, b)) as Hk.
  { by apply lookup_zip_Some. }
  destruct (Forall2_lookup_l _ _ _ _ _ H Hk) as (z & Hz & Hdiv).
  simpl in Hdiv. destruct a as [x |], b as [y |]; try done.
  injection Hdiv as <-. eauto.
Qed.

Lemma replace_lookup a b (s : series) k v :
  s !! k = Some v →
  replace a b s !! k = Some (if bool_decide (v = a) then b else v).
Proof. intros H. unfold replace. by rewrite list_lookup_fmap, H. Qed.

Lemma replace_length a b (s : series) : length (replace a b s) = length s.
Proof. apply length_map. Qed.

Lemma Qc_inv_nonneg (d : Qc) : (0 < d)%Qc → (0 ≤ / d)%Qc.
Proof.
  unfold Qclt, Qcle. intros Hd.
  change (this (/ d)%Qc) with (Qred (/ this d)).
  change (this 0%Qc) with 0%Q in *.
  rewrite Qred_correct. by apply Qlt_le_weak, Qinv_lt_0_compat.
Qed.

Lemma code_efficiency_nonneg (a b : Qc) :
  (0 ≤ a)%Qc → (0 ≤ b)%Qc → (0 ≤ code_efficiency a b)%Qc.
Proof.
  intros Ha Hb. unfold code_efficiency.
  assert (0 < (if bool_decide (b = 0) then 1 else b))%Qc as Hd.
  { case_bool_decide as Hz; [by_evaluation |].
    apply Qcle_lt_or_eq in Hb as [Hb | Hb]; [done | by subst]. }
  apply Qcmult_nonneg_nonneg; [| by_evaluation].
  unfold Qcdiv. apply Qcmult_nonneg_nonneg; [done | by apply Qc_inv_nonneg].
Qed.

Lemma code_efficiency_spec (a b : Qc) :
  b = 0%Qc ∨ (1 ≤ b)%Qc → code_efficiency a b = spec_efficiency a b.
Proof.
  unfold code_efficiency, spec_efficiency. intros [-> | Hb].
  - rewrite bool_decide_eq_true_2 by done.
    by rewrite bool_decide_eq_true_2 by by_evaluation.
  - rewrite bool_decide_eq_false_2.
    + case_bool_decide as Hle; [| done].
      by rewrite (Qcle_antisym _ _ Hle Hb).
    + intros ->. revert Hb. by apply Qclt_not_le.
Qed.

Lemma float_efficiency_finite (a b : Qc) :
  float_mul
    (float_div (Fin a) (if bool_decide (Fin b = Fin 0%Qc) then Fin 1%Qc else Fin b))
    (qc 10)
  = Fin (code_efficiency a b).
Proof.
  unfold code_efficiency, qc.
  destruct (decide (b = 0%Qc)) as [-> | Hb].
  - rewrite !bool_decide_eq_true_2 by done. done.
  - rewrite (bool_decide_eq_false_2 (Fin b = _)) by congruence.
    rewrite (bool_decide_eq_false_2 (b = _)) by done. simpl.
    by rewrite bool_decide_eq_false_2 by done.
Qed.

(** What a successful derivation leaves in the table [t] it was given. *)
Lemma derived_columns t p e q s lv :
  well_formed t →
  getitem "ProjectsCompleted" t = Ok p →
  getitem "ExperienceYears" t = Ok e →
  truediv p (replace (Float (Fin 0)) (Float (Fin 1)) e) = Ok q →
  getitem "PerformanceScore"
    (setitem "Efficiency (%)" (Float <$> mul_scalar q (qc 10)) t) = Ok s →
  apply performance_level s = Ok lv →
  let t' := setitem "Performance_Level" lv
              (setitem "Efficiency (%)" (Float <$> mul_scalar q (qc 10)) t) in
  frame_len t' = frame_len t
  ∧ well_formed t'
  ∧ getitem "Efficiency (%)" t' = Ok (Float <$> mul_scalar q (qc 10))
  ∧ getitem "Performance_Level" t' = Ok lv
  ∧ ∀ c, c ≠ "Efficiency (%)" → c ≠ "Performance_Level" →
         getitem c t' = getitem c t.
Proof.
  intros Hwf Hp He Hq Hs Hlv.
  set (effs := Float <$> mul_scalar q (qc 10)) in *.
  assert (length effs = frame_len t) as Heffs.
  { unfold effs, mul_scalar. rewrite length_fmap, length_map.
    rewrite (truediv_length _ _ _ Hq), replace_length.
    apply getitem_length in Hp, He. lia. }
  pose proof (setitem_well_formed "Efficiency (%)" effs t Hwf) as Hwf2.
  pose proof (setitem_len "Efficiency (%)" effs t Heffs) as Hlen2.
  assert (length lv = frame_len (setitem "Efficiency (%)" effs t)) as Hlvlen.
  { unfold apply in Hlv. rewrite (rmap_length _ _ _ Hlv).
    by apply getitem_length in Hs. }
  simpl. repeat split.
  - by rewrite setitem_len.
  - by apply setitem_well_formed.
  - rewrite getitem_setitem_ne by done. by apply getitem_setitem_eq.
  - by apply getitem_setitem_eq.
  - intros c Hc1 Hc2.
    rewrite getitem_setitem_ne by done. by rewrite getitem_setitem_ne by done.
Qed.


(** ** The derivation works in place *)

Lemma derive_unfold df w :
  df < length (heap w) →
  derive df w =
  ((derive_table (heap w !!! df)).1,
   World (fs w) (<[df := (derive_table (heap w !!! df)).2]> (heap w)) (stdout w)).
Proof.
  intros Hdf. destruct w as [f h o]. simpl in *.
  unfold derive, derive_table, bind, df_getitem, df_setitem, update, deref, lift.
  simpl.
  destruct (getitem "ProjectsCompleted" _) as [p |]; simpl;
    [| by rewrite list_insert_id by by apply list_lookup_lookup_total_lt].
  destruct (getitem "ExperienceYears" _) as [e |]; simpl;
    [| by rewrite list_insert_id by by apply list_lookup_lookup_total_lt].
  destruct (truediv _ _) as [q |]; simpl;
    [| by rewrite list_insert_id by by apply list_lookup_lookup_total_lt].
  rewrite (list_lookup_total_insert_eq h df) by done.
  destruct (getitem "PerformanceScore" _) as [s |]; simpl; [| done].
  destruct (apply _ _) as [lv |]; simpl; [| done].
  by rewrite list_insert_insert_eq.
Qed.

Lemma derive_table_Ok t t' :
  derive_table t = (Ok (), t') →
  ∃ p e q s lv,
    getitem "ProjectsCompleted" t = Ok p
    ∧ getitem "ExperienceYears" t = Ok e
    ∧ truediv p (replace (Float (Fin 0)) (Float (Fin 1)) e) = Ok q
    ∧ getitem "PerformanceScore"
        (setitem "Efficiency (%)" (Float <$> mul_scalar q (qc 10)) t) = Ok s
    ∧ apply performance_level s = Ok lv
    ∧ t' = setitem "Performance_Level" lv
             (setitem "Efficiency (%)" (Float <$> mul_scalar q (qc 10)) t).
Proof.
  unfold derive_table.
  destruct (getitem "ProjectsCompleted" _) as [p |]; [| done].
  destruct (getitem "ExperienceYears" _) as [e |]; [| done].
  destruct (truediv _ _) as [q |] eqn:Hq; [| done].
  destruct (getitem "PerformanceScore" _) as [s |] eqn:Hs; [| done].
  destruct (apply _ _) as [lv |] eqn:Hlv; [| done].
  intros [= <-]. by exists p, e, q, s, lv.
Qed.

(** C4, as the code has it: the derivation reads nothing but the table it
    is given and touches nothing but that table (no file, no output, no
    other object, no new table); its outcome and the table it leaves
    depend only on the contents of the table.  It does not leave the input
    alone: when it succeeds, the very object it was given carries
    [Efficiency (%)] and [Performance_Level] on every record, its other
    columns being as they were. *)
Theorem derive_updates_in_place df w :
  df < length (heap w) →
  well_formed (heap w !!! df) →
  fs (derive df w).2 = fs w
  ∧ stdout (derive df w).2 = stdout w
  ∧ length (heap (derive df w).2) = length (heap w)
  ∧ (∀ l, l ≠ df → heap (derive df w).2 !! l = heap w !! l)
  ∧ (∀ df' w', df' < length (heap w') → heap w' !!! df' = heap w !!! df →
       (derive df' w').1 = (derive df w).1
       ∧ heap (derive df' w').2 !!! df' = heap (derive df w).2 !!! df)
  ∧ ((derive df w).1 = Ok () →
       ∃ effs lv,
         getitem "Efficiency (%)" (heap (derive df w).2 !!! df) = Ok effs
         ∧ getitem "Performance_Level" (heap (derive df w).2 !!! df) = Ok lv
         ∧ length effs = frame_len (heap w !!! df)
         ∧ length lv = frame_len (heap w !!! df)
         ∧ frame_len (heap (derive df w).2 !!! df) = frame_len (heap w !!! df)
         ∧ ∀ c, c ≠ "Efficiency (%)" → c ≠ "Performance_Level" →
             getitem c (heap (derive df w).2 !!! df) = getitem c (heap w !!! df)).
Proof.
  intros Hdf Hwf. rewrite derive_unfold by done. simpl.
  split; [done |]. split; [done |]. split; [apply length_insert |].
  split; [intros l Hl; by apply list_lookup_insert_ne |].
  split.
  - intros df' w' Hdf' Heq. rewrite derive_unfold by done. simpl.
    rewrite Heq. split; [done |].
    by rewrite !list_lookup_total_insert_eq.
  - rewrite list_lookup_total_insert_eq by done.
    destruct (derive_table (heap w !!! df)) as [r t'] eqn:Ht. simpl.
    intros ->. apply derive_table_Ok in Ht as (p & e & q & s & lv & Hp & He & Hq & Hs & Hlv & ->).
    destruct (derived_columns _ p e q s lv Hwf Hp He Hq Hs Hlv)
      as (Hlen & _ & Heff & Hpl & Hother).
    exists (Float <$> mul_scalar q (qc 10)), lv.
    split; [done |]. split; [done |].
    apply getitem_length in Heff, Hpl. rewrite Hlen in Heff, Hpl.
    by repeat split.
Qed.

(** ** The materialized store *)

Lemma pipeline_Ok w df w' :
  pipeline w = (Ok df, w') →
  ∃ w1 w2,
    ingest source_path w = (Ok df, w1)
    ∧ derive df w1 = (Ok (), w2)
    ∧ w' = World (<[store_path := to_csv_text (heap w2 !!! df)]> (fs w2))
             (heap w2)
             (stdout w2 ++ ["✅ Data cleaned and processed successfully!"]).
Proof.
  unfold pipeline, bind.
  destruct (ingest source_path w) as [[df0 |] w1] eqn:Hi; [| done].
  destruct (derive df0 w1) as [[[] |] w2] eqn:Hd; [| done].
  unfold materialize, bind, df_to_csv, print, ret. simpl.
  intros [= <- <-]. by exists w1, w2.
Qed.

Lemma setitem_new_rows c s t :
  c ∉ columns t → length s = frame_len t →
  Forall2 (λ r r', ∃ v, r' = r ++ [v]) (rows t) (rows (setitem c s t)).
Proof.
  intros Hc%index_of_None Hlen. unfold setitem. rewrite Hc. simpl.
  unfold frame_len in Hlen. revert s Hlen.
  induction (rows t) as [| r rs IH]; intros [| v s] Hlen; simpl in *;
    try done.
  constructor; [by exists v | apply IH; lia].
Qed.

(** C8, as the code has it: when the pipeline succeeds on a source that
    has no column labelled [Efficiency (%)] or [Performance_Level], the
    store has the header of the source followed by exactly these two
    labels, one line per record of the ingested table, and each line is
    the record as ingested (missing cells filled with zero), written field
    by field, followed by the two derived fields. *)
Theorem store_shape w df w' src :
  pipeline w = (Ok df, w') →
  fs w !! source_path = Some src →
  "Efficiency (%)" ∉ header src →
  "Performance_Level" ∉ header src →
  ∃ t st,
    read_csv_text src = Ok t
    ∧ fs w' !! store_path = Some st
    ∧ header st = header src ++ ["Efficiency (%)"; "Performance_Level"]
    ∧ Forall2 (λ l l', ∃ a b, l' = l ++ [a; b])
        (lines (to_csv_text (fillna (Float (Fin 0)) t))) (lines st).
Proof.
  intros (w1 & w2 & Hi & Hd & ->)%pipeline_Ok Hsrc Heff Hpl.
  apply ingest_Ok in Hi as (c & t0 & Hc & Ht0 & -> & ->).
  rewrite Hsrc in Hc. injection Hc as <-.
  pose proof Ht0 as (Hcols & Hne & Hwf0 & Hlen0)%read_csv_text_Ok.
  set (t := fillna (Float (Fin 0)) t0) in *.
  assert (well_formed t) as Hwf by by apply fillna_well_formed.
  assert (columns t = header src) as Hct by done.
  rewrite derive_unfold in Hd by (simpl; rewrite length_app; simpl; lia).
  simpl in Hd. rewrite heap_alloc_lookup in Hd.
  destruct (derive_table t) as [r t'] eqn:Ht. simpl in Hd.
  injection Hd as -> <-. simpl.
  rewrite list_lookup_total_insert_eq by (rewrite length_app; simpl; lia).
  apply derive_table_Ok in Ht as (p & e & q & s & lv & Hp & He & Hq & Hs & Hlv & ->).
  exists t0, (to_csv_text
                (setitem "Performance_Level" lv
                   (setitem "Efficiency (%)" (Float <$> mul_scalar q (qc 10)) t))).
  split; [done |]. split; [by rewrite lookup_insert_eq |].
  set (effs := Float <$> mul_scalar q (qc 10)) in *.
  assert (length effs = frame_len t) as Heffs.
  { unfold effs, mul_scalar. rewrite length_fmap, length_map.
    rewrite (truediv_length _ _ _ Hq), replace_length.
    apply getitem_length in Hp, He. lia. }
  assert (length lv = frame_len (setitem "Efficiency (%)" effs t)) as Hlvlen.
  { unfold apply in Hlv. rewrite (rmap_length _ _ _ Hlv).
    by apply getitem_length in Hs. }
  assert (columns (setitem "Efficiency (%)" effs t) = header src ++ ["Efficiency (%)"])
    as Hcols2.
  { rewrite setitem_columns, Hct. by rewrite bool_decide_eq_false_2. }
  split.
  - simpl. rewrite setitem_columns, Hcols2.
    rewrite bool_decide_eq_false_2; [by rewrite <- app_assoc |].
    rewrite elem_of_app, list_elem_of_singleton. by intros [? | ?].
  - simpl.
    pose proof (setitem_new_rows "Efficiency (%)" effs t) as H1.
    pose proof (setitem_new_rows "Performance_Level" lv
                  (setitem "Efficiency (%)" effs t)) as H2.
    apply Forall2_fmap_2. eapply Forall2_trans;
      [| apply H1; [by rewrite Hct | done]
       | apply H2; [| done]].
    + simpl. intros r r1 r2 [a ->] [b ->]. exists (render a), (render b).
      by rewrite !fmap_app, <- app_assoc.
    + rewrite Hcols2, elem_of_app, list_elem_of_singleton. by intros [? | ?].
Qed.

(** ** Loading *)

Lemma read_csv_text_Raise c e :
  read_csv_text c = Raise e → e = EmptyDataError ∨ e = ParserError.
Proof.
  unfold read_csv_text. destruct (header c); [intros [= <-]; by left |].
  destruct (forallb _ _); [done | intros [= <-]; by right].
Qed.

Lemma read_csv_text_is_Ok c :
  header c ≠ [] →
  Forall (λ l, length l ≤ length (header c)) (lines c) →
  ∃ t, read_csv_text c = Ok t.
Proof.
  intros Hh Hl. unfold read_csv_text. destruct (header c) as [| h hs] eqn:Hc; [done |].
  rewrite (proj2 (forallb_forall _ _)); [eauto |].
  intros l [_ Hin]%list_elem_of_In%list_elem_of_filter.
  apply bool_decide_eq_true_2. rewrite Forall_forall in Hl. by apply Hl.
Qed.


(** ** The handlers read the store and nothing else *)

Lemma get_data_unfold g w :
  (get_data g w).1 =
  match fs w !! store_path with
  | None => Raise (FileNotFoundError store_path)
  | Some c => (t <- read_csv_text c ;; Ok (to_records t))%result
  end.
Proof.
  unfold get_data, bind, pd_read_csv, new_frame, deref, lift, ret.
  destruct (fs w !! store_path) as [c |]; [| done].
  destruct (read_csv_text c) as [t |]; [| done]. simpl.
  by rewrite heap_alloc_lookup.
Qed.

Lemma get_metrics_unfold g w :
  (get_metrics g w).1 =
  match fs w !! store_path with
  | None => Raise (FileNotFoundError store_path)
  | Some c => (t <- read_csv_text c ;; metrics_of t)%result
  end.
Proof.
  unfold get_metrics, bind, pd_read_csv, new_frame, deref, lift, ret.
  destruct (fs w !! store_path) as [c |]; [| done].
  destruct (read_csv_text c) as [t |]; [| done]. simpl.
  rewrite heap_alloc_lookup. by destruct (metrics_of t).
Qed.

Lemma get_department_stats_unfold g w :
  (get_department_stats g w).1 =
  match fs w !! store_path with
  | None => Raise (FileNotFoundError store_path)
  | Some c => (t <- read_csv_text c ;; department_stats_of t)%result
  end.
Proof.
  unfold get_department_stats, bind, pd_read_csv, new_frame, deref, lift, ret.
  destruct (fs w !! store_path) as [c |]; [| done].
  destruct (read_csv_text c) as [t |]; [| done]. simpl.
  rewrite heap_alloc_lookup. by destruct (department_stats_of t).
Qed.

(** C10: each of the three query operations returns a response that is
    determined by the contents of the store file at the time of the call:
    whatever the module globals and the rest of the process state, equal
    store contents give equal responses. *)
Theorem queries_depend_on_store_only g1 g2 w1 w2 :
  fs w1 !! store_path = fs w2 !! store_path →
  (get_data g1 w1).1 = (get_data g2 w2).1
  ∧ (get_metrics g1 w1).1 = (get_metrics g2 w2).1
  ∧ (get_department_stats g1 w1).1 = (get_department_stats g2 w2).1.
Proof.
  intros Heq.
  rewrite !get_data_unfold, !get_metrics_unfold, !get_department_stats_unfold.
  by rewrite Heq.
Qed.

(** ** Counting employees *)

Lemma metrics_of_total t m : metrics_of t = Ok m → total_employees m = frame_len t.
Proof.
  unfold metrics_of. intros H.
  repeat (apply rbind_Ok in H as (? & _ & H)). by injection H as <-.
Qed.

Lemma to_records_length t : length (to_records t) = frame_len t.
Proof. unfold to_records, frame_len. apply length_map. Qed.

(** C7: whenever the summary metrics are returned, the all-records
    operation over the same store returns too, and [Total Employees] is
    the number of records it returns. *)
Theorem total_employees_counts_records g g' w m :
  (get_metrics g w).1 = Ok m →
  ∃ rs, (get_data g' w).1 = Ok rs ∧ total_employees m = length rs.
Proof.
  rewrite get_metrics_unfold, get_data_unfold.
  destruct (fs w !! store_path) as [c |]; [| done].
  destruct (read_csv_text c) as [t |]; [| done]. simpl.
  intros Hm%metrics_of_total. exists (to_records t).
  by rewrite to_records_length.
Qed.

(** ** Aggregating no record *)

Lemma read_csv_text_no_record c :
  header c ≠ [] → filter (λ l, l ≠ []) (lines c) = [] →
  read_csv_text c = Ok (Frame (header c) []).
Proof.
  intros Hh Hl. unfold read_csv_text. rewrite Hl. simpl.
  by destruct (header c).
Qed.

Lemma getitem_no_record c cs :
  getitem c (Frame cs []) = if bool_decide (c ∈ cs) then Ok [] else Raise (KeyError c).
Proof.
  unfold getitem. simpl. destruct (index_of c cs) as [i |] eqn:Hi.
  - rewrite bool_decide_eq_true_2; [done |].
    apply index_of_Some in Hi as [Hi _]. by eapply list_elem_of_lookup_2.
  - rewrite bool_decide_eq_false_2; [done |]. by apply index_of_None.
Qed.

Lemma average_no_record c cs :
  average c (Frame cs []) = if bool_decide (c ∈ cs) then Ok NaN else Raise (KeyError c).
Proof.
  unfold average. rewrite getitem_no_record. by case_bool_decide.
Qed.

Lemma top_performer_no_record cs :
  top_performer_of (Frame cs []) =
  if bool_decide ("PerformanceScore" ∈ cs) then Raise ValueError
  else Raise (KeyError "PerformanceScore").
Proof.
  unfold top_performer_of. rewrite getitem_no_record. by case_bool_decide.
Qed.

(** The start-up metrics of lines 26-30 over a table with no record. *)
Lemma core_metrics_no_record df w :
  rows (heap w !!! df) = [] →
  ∃ e, (core_metrics df w).1 = Raise e ∧ (e = ValueError ∨ ∃ k, e = KeyError k).
Proof.
  unfold core_metrics, bind, deref, lift, ret.
  destruct (heap w !!! df) as [cs rs]. simpl. intros ->.
  rewrite !average_no_record, top_performer_no_record.
  repeat case_bool_decide; simpl; eexists; (split; [done |]); eauto.
Qed.

(** C3, as the code has it: over a store with no record the summary
    metrics are never returned, by the handler or by the start-up
    computation of lines 26-30.  With the three averaged columns present
    the averages evaluate to NaN and the look-up of the top performer
    raises [ValueError] ([idxmax] of an empty series), which the handler
    does not catch; with one of them absent the first look-up of it raises
    [KeyError].  No exception is called [UndefinedAggregate]. *)
Theorem metrics_of_no_record g w c :
  fs w !! store_path = Some c →
  header c ≠ [] →
  filter (λ l, l ≠ []) (lines c) = [] →
  (∃ e, (get_metrics g w).1 = Raise e
        ∧ (e = ValueError ∨ ∃ k, e = KeyError k)
        ∧ exn_name e ≠ "UndefinedAggregate")
  ∧ (∀ df w', rows (heap w' !!! df) = [] →
       ∃ e, (core_metrics df w').1 = Raise e
            ∧ (e = ValueError ∨ ∃ k, e = KeyError k)
            ∧ exn_name e ≠ "UndefinedAggregate")
  ∧ ("PerformanceScore" ∈ header c → "MonthlySalary" ∈ header c →
     "AttendanceRate (%)" ∈ header c →
     (get_metrics g w).1 = Raise ValueError
     ∧ average "PerformanceScore" (Frame (header c) []) = Ok NaN
     ∧ average "MonthlySalary" (Frame (header c) []) = Ok NaN
     ∧ average "AttendanceRate (%)" (Frame (header c) []) = Ok NaN).
Proof.
  intros Hc Hh Hl. rewrite get_metrics_unfold, Hc.
  rewrite read_csv_text_no_record by done. simpl.
  unfold metrics_of. rewrite !average_no_record, top_performer_no_record.
  split; [| split].
  - repeat case_bool_decide; simpl; eexists; (split; [done |]);
      (split; [| done]); eauto.
  - intros df w' Hrows.
    destruct (core_metrics_no_record df w' Hrows) as (e & He & Hkind).
    exists e. split; [done |]. split; [done |].
    by destruct Hkind as [-> | [k ->]].
  - intros H1 H2 H3. rewrite !bool_decide_eq_true_2 by done. done.
Qed.

(** ** Writing a table and reading it back *)

Lemma field_render j r : field j (render <$> r) = match r !! j with
                                                  | Some v => render v
                                                  | None => Word ""
                                                  end.
Proof. unfold field. rewrite list_lookup_fmap. by destruct (r !! j). Qed.

Lemma parse_field_number x :
  isnan x = false → parse_field true (render (Float x)) = Float x.
Proof. by destruct x. Qed.

Lemma numeric_field_number x :
  isnan x = false →
  is_na (render (Float x)) || is_numeral (render (Float x)) = true.
Proof. by destruct x. Qed.

Lemma parse_field_word b s :
  s ∉ na_values → parse_field b (render (Str (Word s))) = Str (Word s).
Proof.
  intros Hs. unfold parse_field. simpl. by rewrite bool_decide_eq_false_2.
Qed.

Lemma is_number_inv j r :
  is_number (cell j r) = true → ∃ x, r !! j = Some (Float x) ∧ isnan x = false.
Proof.
  unfold cell. destruct (r !! j) as [[x | tx] |]; simpl; try done.
  intros H. exists x. split; [done |]. by destruct (isnan x).
Qed.

Lemma is_word_inv j r :
  is_word (cell j r) = true → ∃ s, r !! j = Some (Str (Word s)) ∧ s ∉ na_values.
Proof.
  unfold cell. destruct (r !! j) as [[x | [x | s]] |]; simpl; try done.
  intros H%bool_decide_eq_true_1. eauto.
Qed.

Lemma numeric_column_of_numbers (rs : list (list value)) j :
  forallb (λ r, is_number (cell j r)) rs = true →
  numeric_column (map (map render) rs) j = true.
Proof.
  unfold numeric_column. rewrite !forallb_forall. intros H l Hl.
  apply in_map_iff in Hl as (r & <- & Hr).
  destruct (is_number_inv j r (H r Hr)) as (x & Hx & Hnan).
  change (map render r) with (render <$> r). rewrite field_render, Hx.
  by apply numeric_field_number.
Qed.

Lemma map_id_Forall {A} (f : A → A) (l : list A) :
  Forall (λ x, f x = x) l → map f l = l.
Proof. induction 1; simpl; congruence. Qed.

Lemma filter_nonblank (ls : list (list text)) :
  Forall (λ l, l ≠ []) ls → filter (λ l, l ≠ []) ls = ls.
Proof.
  induction 1 as [| l ls Hl Hls IH]; [done |].
  rewrite filter_cons_True by done. by rewrite IH.
Qed.

Lemma read_to_csv_text t :
  well_formed t → columns t ≠ [] → uniform t = true →
  read_csv_text (to_csv_text t) = Ok t.
Proof.
  intros Hwf Hne Hun. destruct t as [cs rs]. unfold well_formed in Hwf.
  simpl in *. unfold read_csv_text, to_csv_text. simpl.
  destruct cs as [| c0 cs'] eqn:Hcs; [done |]. rewrite <- Hcs in *.
  assert (0 < length cs) as Hpos by (rewrite Hcs; simpl; lia).
  rewrite filter_nonblank.
  2:{ apply Forall_forall. intros l Hl%list_elem_of_In%in_map_iff.
      destruct Hl as (r & <- & Hr%list_elem_of_In).
      rewrite Forall_forall in Hwf. specialize (Hwf r Hr).
      destruct r; simpl in *; [lia | done]. }
  rewrite (proj2 (forallb_forall _ _)).
  2:{ intros l Hl%in_map_iff. destruct Hl as (r & <- & Hr%list_elem_of_In).
      rewrite Forall_forall in Hwf. specialize (Hwf r Hr).
      apply bool_decide_eq_true_2. rewrite length_map. lia. }
  f_equal. f_equal. rewrite map_map. apply map_id_Forall.
  apply Forall_forall. intros r Hr.
  rewrite Forall_forall in Hwf. pose proof (Hwf r Hr) as Hlen.
  apply list_eq. intros j.
  change (map ?f ?l) with (f <$> l) at 1. rewrite list_lookup_fmap.
  destruct (decide (j < length cs)) as [Hj | Hj].
  - rewrite lookup_seq_lt by done. simpl.
    destruct (lookup_lt_is_Some_2 r j) as [v Hv]; [lia |]. rewrite Hv.
    f_equal. change (map render r) with (render <$> r). rewrite field_render, Hv.
    unfold uniform in Hun. simpl in Hun. rewrite forallb_forall in Hun.
    specialize (Hun j). rewrite in_seq in Hun.
    specialize (Hun ltac:(lia)). unfold uniform_column in Hun. simpl in Hun.
    apply orb_true_iff in Hun as [Hnum | Hword].
    + pose proof (numeric_column_of_numbers rs j Hnum) as Hcol.
      rewrite forallb_forall in Hnum.
      destruct (is_number_inv j r (Hnum r ltac:(by apply list_elem_of_In)))
        as (x & Hx & Hnan).
      rewrite Hv in Hx. injection Hx as ->. rewrite Hcol.
      by apply parse_field_number.
    + rewrite forallb_forall in Hword.
      destruct (is_word_inv j r (Hword r ltac:(by apply list_elem_of_In)))
        as (s & Hs & Hna).
      rewrite Hv in Hs. injection Hs as ->. by apply parse_field_word.
  - rewrite lookup_seq_ge by lia. simpl. symmetry.
    apply lookup_ge_None. lia.
Qed.


(** ** The scenario of the specification, and the cases where the code
       parts from it *)

Lemma two_loaded_well_formed : well_formed (heap two_loaded !!! 0).
Proof. vm_compute. repeat constructor. Qed.

Lemma two_derived_well_formed : well_formed (heap two_derived !!! 0).
Proof. vm_compute. repeat constructor. Qed.



(** A store with no record: [get_metrics] raises [ValueError]. *)
Lemma metrics_of_empty_store :
  fs empty_store !! store_path
  = Some (Csv (employee_header ++ ["Efficiency (%)"; "Performance_Level"]) [])
  ∧ (get_metrics some_globals empty_store).1 = Raise ValueError.
Proof.
  assert (fs empty_store !! store_path
          = Some (Csv (employee_header ++ ["Efficiency (%)"; "Performance_Level"]) []))
    as Hc by (vm_compute; reflexivity).
  split; [exact Hc |].
  destruct (metrics_of_no_record some_globals empty_store _ Hc) as (_ & _ & Hraise);
    [done | done |].
  apply Hraise; by_evaluation.
Defined.

(** The script on a dataset with no employee: the store is written, then
    the start-up metrics raise [ValueError]; so does [get_metrics] over
    that store.  The exception is not an [UndefinedAggregate]. *)
Lemma no_record_raises_ValueError :
  (main (world_of no_employees)).1 = Raise ValueError
  ∧ (get_metrics some_globals (main (world_of no_employees)).2).1 = Raise ValueError
  ∧ exn_name ValueError ≠ "UndefinedAggregate".
Proof. repeat split; by_evaluation. Qed.

(** The derivation on the two employees, seen from the heap. *)
Lemma derive_two_employees_in_place :
  0 < length (heap two_loaded)
  ∧ well_formed (heap two_loaded !!! 0)
  ∧ fs two_derived = fs two_loaded
  ∧ stdout two_derived = stdout two_loaded
  ∧ length (heap two_derived) = length (heap two_loaded)
  ∧ ∀ c, c ≠ "Efficiency (%)" → c ≠ "Performance_Level" →
      getitem c (heap two_derived !!! 0) = getitem c (heap two_loaded !!! 0).
Proof.
  assert (0 < length (heap two_loaded)) as H1 by (vm_compute; lia).
  pose proof two_loaded_well_formed as H2.
  split; [exact H1 |]. split; [exact H2 |].
  destruct (derive_updates_in_place 0 two_loaded H1 H2)
    as (Hfs & Hout & Hlen & _ & _ & Hok).
  split; [exact Hfs |]. split; [exact Hout |]. split; [exact Hlen |].
  destruct Hok as (effs & lv & _ & _ & _ & _ & _ & Hother);
    [vm_compute; reflexivity | exact Hother].
Defined.

(** The table that was loaded is the table that is changed: after the
    derivation the same object has two more columns, and there is no
    other table. *)
Lemma derive_mutates_its_input :
  (derive 0 two_loaded).1 = Ok ()
  ∧ columns (heap two_loaded !!! 0) = employee_header
  ∧ columns (heap two_derived !!! 0)
    = employee_header ++ ["Efficiency (%)"; "Performance_Level"]
  ∧ heap two_derived !!! 0 ≠ heap two_loaded !!! 0
  ∧ length (heap two_derived) = 1.
Proof. repeat split; by_evaluation. Qed.


(** A column the derivation does not use is missed only after the store
    was written. *)
Lemma missing_salary_surfaces_late :
  (main (world_of no_salary)).1 = Raise (KeyError "MonthlySalary")
  ∧ header <$> (fs (main (world_of no_salary)).2 !! store_path)
    = Some (header no_salary ++ ["Efficiency (%)"; "Performance_Level"]).
Proof. repeat split; by_evaluation. Qed.



(** The metrics of the two employees count the two records served. *)
Lemma total_of_two_employees :
  (get_metrics some_globals two_stored).1 = Ok two_metrics
  ∧ ∃ rs, (get_data other_globals two_stored).1 = Ok rs
          ∧ total_employees two_metrics = length rs.
Proof.
  assert ((get_metrics some_globals two_stored).1 = Ok two_metrics) as H
    by by_evaluation.
  split; [exact H |].
  exact (total_employees_counts_records some_globals other_globals two_stored _ H).
Defined.

(** The store of the two employees. *)
Lemma store_of_two_employees :
  pipeline (world_of two_employees) = (Ok 0, two_stored)
  ∧ ∃ st, fs two_stored !! store_path = Some st
          ∧ header st = employee_header ++ ["Efficiency (%)"; "Performance_Level"].
Proof.
  assert (pipeline (world_of two_employees) = (Ok 0, two_stored)) as H1
    by (vm_compute; reflexivity).
  assert (fs (world_of two_employees) !! source_path = Some two_employees) as H2
    by (vm_compute; reflexivity).
  split; [exact H1 |].
  destruct (store_shape _ _ _ _ H1 H2) as (t & st & _ & Hst & Hh & _);
    [by_evaluation | by_evaluation |].
  exists st. split; [exact Hst | exact Hh].
Defined.

(** The first derived column is labelled [Efficiency (%)], not
    [Efficiency]; and a source that already has a [Performance_Level]
    column gets one column appended, not two. *)
Lemma store_header_labels :
  header <$> (fs two_stored !! store_path)
  = Some (employee_header ++ ["Efficiency (%)"; "Performance_Level"])
  ∧ ("Efficiency" ∉ employee_header ++ ["Efficiency (%)"; "Performance_Level"])
  ∧ header <$> (fs (pipeline (world_of labelled_already)).2 !! store_path)
    = Some (header labelled_already ++ ["Efficiency (%)"]).
Proof. repeat split; by_evaluation. Qed.

(** Two processes over the same store answer alike. *)
Lemma same_store_same_answers :
  fs two_stored !! store_path = fs two_restarted !! store_path
  ∧ (get_data some_globals two_stored).1 = (get_data other_globals two_restarted).1
  ∧ (get_metrics some_globals two_stored).1
    = (get_metrics other_globals two_restarted).1
  ∧ (get_department_stats some_globals two_stored).1
    = (get_department_stats other_globals two_restarted).1.
Proof.
  assert (fs two_stored !! store_path = fs two_restarted !! store_path) as H
    by reflexivity.
  split; [exact H |].
  exact (queries_depend_on_store_only some_globals other_globals
           two_stored two_restarted H).
Defined.

(** * Further properties of the backend *)

(** ** The level column *)

Lemma apply_lookup f (s lv : series) k v :
  apply f s = Ok lv → s !! k = Some v → ∃ l, f v = Ok l ∧ lv !! k = Some l.
Proof.
  unfold apply. intros H%rmap_Ok Hk.
  destruct (Forall2_lookup_l _ _ _ _ _ H Hk) as (l & Hl & Hf). eauto.
Qed.

(** The level column that lines 15-17 assign, on the table itself. *)
Lemma derived_levels t p e q s lv :
  well_formed t →
  getitem "ProjectsCompleted" t = Ok p →
  getitem "ExperienceYears" t = Ok e →
  truediv p (replace (Float (Fin 0)) (Float (Fin 1)) e) = Ok q →
  getitem "PerformanceScore"
    (setitem "Efficiency (%)" (Float <$> mul_scalar q (qc 10)) t) = Ok s →
  apply performance_level s = Ok lv →
  getitem "PerformanceScore" t = Ok s
  ∧ ∀ k, k < frame_len t →
      ∃ x, s !! k = Some (Float x)
           ∧ lv !! k = Some (Str (Word (if float_ge x (qc 4.5) then "High"
                                        else if float_ge x (qc 3.5) then "Medium"
                                        else "Low"))).
Proof.
  intros Hwf Hp He Hq Hs Hlv.
  assert (getitem "PerformanceScore" t = Ok s) as Hs0.
  { rewrite <- Hs. symmetry. apply getitem_setitem_ne; [done | | done].
    unfold mul_scalar. rewrite length_fmap, length_map.
    rewrite (truediv_length _ _ _ Hq), replace_length.
    apply getitem_length in Hp, He. lia. }
  split; [done |]. intros k Hk.
  destruct (lookup_lt_is_Some_2 s k) as [v Hv];
    [by rewrite (getitem_length _ _ _ Hs0) |].
  destruct (apply_lookup _ _ _ _ _ Hlv Hv) as (l & Hl & Hlk).
  destruct v as [x | tx]; [| done]. injection Hl as <-. eauto.
Qed.

(** X1: after a successful derivation every record carries the level of its
    own score: [Performance_Level] is [High] when [PerformanceScore] is at
    least 4.5, [Medium] when it is at least 3.5, [Low] otherwise (also for
    a missing score), and [PerformanceScore] is a number on every record. *)
Theorem level_of_every_record df w w2 :
  df < length (heap w) →
  well_formed (heap w !!! df) →
  derive df w = (Ok (), w2) →
  ∃ ss lv,
    getitem "PerformanceScore" (heap w !!! df) = Ok ss
    ∧ getitem "PerformanceScore" (heap w2 !!! df) = Ok ss
    ∧ getitem "Performance_Level" (heap w2 !!! df) = Ok lv
    ∧ ∀ k, k < frame_len (heap w2 !!! df) →
        ∃ x, ss !! k = Some (Float x)
             ∧ lv !! k = Some (Str (Word (if float_ge x (qc 4.5) then "High"
                                          else if float_ge x (qc 3.5) then "Medium"
                                          else "Low"))).
Proof.
  intros Hdf Hwf Hd.
  apply derive_Ok in Hd as (p & e & q & s & lv & Hp & He & Hq & Hs & Hlv & ->);
    [| done].
  simpl. rewrite list_lookup_total_insert_eq by done.
  destruct (derived_columns _ p e q s lv Hwf Hp He Hq Hs Hlv)
    as (Hlen & _ & _ & Hpl & Hother).
  destruct (derived_levels _ p e q s lv Hwf Hp He Hq Hs Hlv) as (Hs0 & Hall).
  exists s, lv. split; [done |]. split; [by rewrite Hother |].
  split; [done |]. intros k Hk. rewrite Hlen in Hk. by apply Hall.
Qed.

(** ** How a derivation fails *)

Lemma rmap_Raise {A B} (f : A → result B) xs e :
  rmap f xs = Raise e → ∃ x, x ∈ xs ∧ f x = Raise e.
Proof.
  induction xs as [| x xs IH]; simpl; [done |].
  destruct (f x) as [y |] eqn:Hx; simpl.
  - destruct (rmap f xs) as [ys |]; simpl; [done |].
    intros [= <-]. destruct (IH eq_refl) as (x' & Hin & Hx').
    exists x'. split; [by right | done].
  - intros [= <-]. exists x. split; [left | done].
Qed.

Lemma truediv_Raise p e x : truediv p e = Raise x → x = TypeError.
Proof.
  intros ([a b] & _ & H)%rmap_Raise. simpl in H.
  destruct a, b; simpl in H; congruence.
Qed.

Lemma apply_level_Raise s x : apply performance_level s = Raise x → x = TypeError.
Proof.
  intros (v & _ & H)%rmap_Raise. destruct v; simpl in H; congruence.
Qed.

Lemma getitem_Raise c t x : getitem c t = Raise x → x = KeyError c ∧ c ∉ columns t.
Proof.
  unfold getitem. destruct (index_of c (columns t)) eqn:Hi; [done |].
  intros [= <-]. split; [done | by apply index_of_None].
Qed.

(** X2: a derivation that fails raises [KeyError] for one of the three columns
    it reads or [TypeError] for a text cell, and nothing else.  It fails
    either before it has changed anything, or after it has assigned
    [Efficiency (%)] and before it has assigned [Performance_Level]: in
    that case the table is left with the efficiency column (for want of
    [PerformanceScore], or for a text cell in it).  Files, output and the
    other objects are as they were. *)
Theorem derive_failure_modes df w e :
  df < length (heap w) →
  (derive df w).1 = Raise e →
  fs (derive df w).2 = fs w
  ∧ stdout (derive df w).2 = stdout w
  ∧ (∀ l, l ≠ df → heap (derive df w).2 !! l = heap w !! l)
  ∧ ((heap (derive df w).2 !!! df = heap w !!! df
      ∧ (e = KeyError "ProjectsCompleted" ∨ e = KeyError "ExperienceYears"
         ∨ e = TypeError))
     ∨ (∃ effs,
          heap (derive df w).2 !!! df = setitem "Efficiency (%)" effs (heap w !!! df)
          ∧ length effs = frame_len (heap w !!! df)
          ∧ (e = KeyError "PerformanceScore" ∨ e = TypeError))).
Proof.
  intros Hdf. rewrite derive_unfold by done. simpl.
  rewrite list_lookup_total_insert_eq by done.
  intros He. split; [done |]. split; [done |].
  split; [intros l Hl; by apply list_lookup_insert_ne |].
  revert He. unfold derive_table.
  destruct (getitem "ProjectsCompleted" _) as [p |] eqn:Hp; simpl.
  2:{ intros [= <-]. apply getitem_Raise in Hp as [-> _]. left. auto. }
  destruct (getitem "ExperienceYears" _) as [ex |] eqn:Hex; simpl.
  2:{ intros [= <-]. apply getitem_Raise in Hex as [-> _]. left. auto. }
  destruct (truediv _ _) as [q |] eqn:Hq; simpl.
  2:{ intros [= <-]. apply truediv_Raise in Hq as ->. left. auto. }
  assert (length (Float <$> mul_scalar q (qc 10)) = frame_len (heap w !!! df))
    as Hlen.
  { unfold mul_scalar. rewrite length_fmap, length_map.
    rewrite (truediv_length _ _ _ Hq), replace_length.
    apply getitem_length in Hp, Hex. lia. }
  destruct (getitem "PerformanceScore" _) as [s |] eqn:Hs; simpl.
  2:{ intros [= <-]. apply getitem_Raise in Hs as [-> _].
      right. eexists. split; [done |]. split; [done | by left]. }
  destruct (apply _ _) as [lv |] eqn:Hlv; simpl; [done |].
  intros [= <-]. apply apply_level_Raise in Hlv as ->.
  right. eexists. split; [done |]. split; [done | by right].
Qed.

(** X3: the three columns are looked up in the order [ProjectsCompleted],
    [ExperienceYears], [PerformanceScore]: the first that is absent is the
    one the [KeyError] names, and when it is one of the first two the
    process is left exactly as it was. *)
Theorem derive_missing_column df w :
  df < length (heap w) →
  ("ProjectsCompleted" ∉ columns (heap w !!! df) →
   derive df w = (Raise (KeyError "ProjectsCompleted"), w))
  ∧ ("ProjectsCompleted" ∈ columns (heap w !!! df) →
     "ExperienceYears" ∉ columns (heap w !!! df) →
     derive df w = (Raise (KeyError "ExperienceYears"), w)).
Proof.
  intros Hdf. rewrite derive_unfold by done. unfold derive_table.
  destruct w as [f h o]. simpl in *. split.
  - intros H. rewrite getitem_KeyError by done. simpl.
    by rewrite list_insert_id by by apply list_lookup_lookup_total_lt.
  - intros [p Hp]%getitem_is_Ok H. rewrite Hp, (getitem_KeyError _ _ H). simpl.
    by rewrite list_insert_id by by apply list_lookup_lookup_total_lt.
Qed.

(** X4: a text cell in [ProjectsCompleted] or [ExperienceYears] (a column that
    holds words, whether or not its blanks were filled with zero) makes the
    division raise [TypeError]; the process is left exactly as it was. *)
Theorem derive_text_cell df w p e k tx :
  df < length (heap w) →
  getitem "ProjectsCompleted" (heap w !!! df) = Ok p →
  getitem "ExperienceYears" (heap w !!! df) = Ok e →
  p !! k = Some (Str tx) ∨ e !! k = Some (Str tx) →
  derive df w = (Raise TypeError, w).
Proof.
  intros Hdf Hp He Hk. rewrite derive_unfold by done. unfold derive_table.
  rewrite Hp, He.
  destruct (truediv p _) as [q |] eqn:Hq.
  - exfalso.
    pose proof (getitem_length _ _ _ Hp) as Hpl.
    pose proof (getitem_length _ _ _ He) as Hel.
    assert (k < frame_len (heap w !!! df)) as Hlt.
    { destruct Hk as [Hk | Hk]; apply lookup_lt_Some in Hk; lia. }
    destruct (lookup_lt_is_Some_2 p k) as [a Ha]; [lia |].
    destruct (lookup_lt_is_Some_2 e k) as [b Hb]; [lia |].
    pose proof (replace_lookup (Float (Fin 0)) (Float (Fin 1)) e k b Hb) as Hb'.
    destruct (truediv_lookup _ _ _ _ _ _ Hq Ha Hb') as (x & y & -> & Hy & _).
    destruct Hk as [Hk | Hk]; [congruence |].
    rewrite Hb in Hk. injection Hk as ->.
    by rewrite bool_decide_eq_false_2 in Hy.
  - apply truediv_Raise in Hq as ->. destruct w as [f h o]. simpl in *.
    by rewrite list_insert_id by by apply list_lookup_lookup_total_lt.
Qed.

(** ** The pipeline writes last *)


(** ** Reading back what was written *)

Lemma read_to_csv_text_rows t :
  well_formed t → columns t ≠ [] →
  read_csv_text (to_csv_text t) =
  Ok (Frame (columns t)
        (map (λ r, map (λ j, parse_field
                               (numeric_column (map (map render) (rows t)) j)
                               (field j (map render r)))
                     (seq 0 (length (columns t))))
           (rows t))).
Proof.
  intros Hwf Hne. destruct t as [cs rs]. unfold well_formed in Hwf.
  simpl in *. unfold read_csv_text, to_csv_text. simpl.
  destruct cs as [| c0 cs'] eqn:Hcs; [done |]. rewrite <- Hcs in *.
  assert (0 < length cs) as Hpos by (rewrite Hcs; simpl; lia).
  rewrite filter_nonblank.
  2:{ apply Forall_forall. intros l Hl%list_elem_of_In%in_map_iff.
      destruct Hl as (r & <- & Hr%list_elem_of_In).
      rewrite Forall_forall in Hwf. specialize (Hwf r Hr).
      destruct r; simpl in *; [lia | done]. }
  rewrite (proj2 (forallb_forall _ _)).
  2:{ intros l Hl%in_map_iff. destruct Hl as (r & <- & Hr%list_elem_of_In).
      rewrite Forall_forall in Hwf. specialize (Hwf r Hr).
      apply bool_decide_eq_true_2. rewrite length_map. lia. }
  by rewrite map_map.
Qed.

Lemma read_back_cell b (r : list value) j n :
  length r = n → j < n →
  cell j (map (λ i, parse_field (b i) (field i (map render r))) (seq 0 n))
  = parse_field (b j) (render (cell j r)).
Proof.
  intros Hlen Hj. unfold cell.
  change (map ?f ?l) with (f <$> l) at 1.
  rewrite list_lookup_fmap, lookup_seq_lt by done. simpl.
  change (map render r) with (render <$> r). rewrite field_render.
  destruct (lookup_lt_is_Some_2 r j) as [v Hv]; [lia |]. by rewrite Hv.
Qed.

Lemma blank_is_na : is_na (Word "") = true.
Proof. vm_compute. reflexivity. Qed.

Lemma render_parse_render b v :
  na_text v = false → render (parse_field b (render v)) = render v.
Proof.
  destruct v as [[q | n |] | [x | s]]; cbn [render na_text]; intros Hna;
    unfold parse_field.
  - cbn [is_na isnan]. by destruct b.
  - cbn [is_na isnan]. by destruct b.
  - by rewrite blank_is_na.
  - rewrite Hna. destruct b; [by destruct x | done].
  - by rewrite Hna.
Qed.

Lemma read_csv_text_rows c t :
  read_csv_text c = Ok t →
  t = Frame (header c)
        (map (λ l, map (λ j, parse_field
                               (numeric_column (filter (λ l, l ≠ []) (lines c)) j)
                               (field j l))
                     (seq 0 (length (header c))))
           (filter (λ l, l ≠ []) (lines c))).
Proof.
  unfold read_csv_text. destruct (header c) as [| h hs] eqn:Hh; [done |].
  rewrite <- Hh. destruct (forallb _ _); [| done]. by intros [= <-].
Qed.

Lemma read_csv_text_no_na_text c t : read_csv_text c = Ok t → no_na_text t.
Proof.
  intros ->%read_csv_text_rows. unfold no_na_text.
  cbn [rows]. apply Forall_map, Forall_true. intros l. cbn beta.
  apply Forall_map, Forall_true. intros j. cbn beta.
  unfold parse_field. destruct (is_na (field j l)) eqn:Hna; [done |].
  destruct (field j l); [| done]. by destruct (numeric_column _ _).
Qed.

Lemma fillna_no_na_text v t :
  na_text v = false → no_na_text t → no_na_text (fillna v t).
Proof.
  unfold no_na_text, fillna. simpl. intros Hv H.
  apply Forall_map. eapply Forall_impl; [done |]. simpl. intros r Hr.
  apply Forall_map. eapply Forall_impl; [done |]. simpl.
  intros [[] |]; simpl; done.
Qed.

Lemma setitem_no_na_text c s t :
  Forall (λ v, na_text v = false) s → no_na_text t → no_na_text (setitem c s t).
Proof.
  unfold no_na_text, setitem. intros Hs Ht.
  destruct (index_of c (columns t)) as [i |]; simpl.
  - revert s Hs. induction Ht as [| r rs Hr Hrs IH]; intros [| v s] Hs; simpl;
      try constructor.
    + apply Forall_insert; [done | by inversion Hs].
    + apply IH. by inversion Hs.
  - revert s Hs. induction Ht as [| r rs Hr Hrs IH]; intros [| v s] Hs; simpl;
      try constructor.
    + apply Forall_app. split; [done |]. constructor; [by inversion Hs | done].
    + apply IH. by inversion Hs.
Qed.

Lemma levels_no_na_text s lv :
  apply performance_level s = Ok lv → Forall (λ v, na_text v = false) lv.
Proof.
  unfold apply. intros H%rmap_Ok. induction H as [| v l s lv Hl _ IH]; [done |].
  constructor; [| done]. destruct v as [x |]; [| done]. injection Hl as <-.
  simpl. destruct (float_ge x (qc 4.5)); [by vm_compute |].
  destruct (float_ge x (qc 3.5)); by vm_compute.
Qed.

Lemma setitem_columns_nonempty c s t : columns (setitem c s t) ≠ [].
Proof.
  unfold setitem. destruct (index_of c (columns t)) as [i |] eqn:Hi; simpl.
  - apply index_of_Some in Hi as [_ Hi]. destruct (columns t); simpl in *; [lia | done].
  - by destruct (columns t).
Qed.

(** What a successful pipeline leaves in the table it loaded. *)
Lemma pipeline_table w df w' :
  pipeline w = (Ok df, w') →
  ∃ t0 p e q s lv,
    let t := fillna (Float (Fin 0)) t0 in
    well_formed t
    ∧ getitem "ProjectsCompleted" t = Ok p
    ∧ getitem "ExperienceYears" t = Ok e
    ∧ truediv p (replace (Float (Fin 0)) (Float (Fin 1)) e) = Ok q
    ∧ getitem "PerformanceScore"
        (setitem "Efficiency (%)" (Float <$> mul_scalar q (qc 10)) t) = Ok s
    ∧ apply performance_level s = Ok lv
    ∧ heap w' !!! df
      = setitem "Performance_Level" lv
          (setitem "Efficiency (%)" (Float <$> mul_scalar q (qc 10)) t)
    ∧ well_formed (heap w' !!! df)
    ∧ columns (heap w' !!! df) ≠ []
    ∧ no_na_text (heap w' !!! df)
    ∧ fs w' !! store_path = Some (to_csv_text (heap w' !!! df)).
Proof.
  intros (w1 & w2 & Hi & Hd & ->)%pipeline_Ok. simpl.
  rewrite lookup_insert_eq.
  pose proof Hi as (c & t0 & Hc & Ht0 & -> & ->)%ingest_Ok.
  pose proof Ht0 as (Hcols & Hne & Hwf0 & Hlen0)%read_csv_text_Ok.
  pose proof (read_csv_text_no_na_text _ _ Ht0) as Hna0.
  assert (length (heap w) < length (heap w ++ [fillna (Float (Fin 0)) t0])) as Hlt
    by (rewrite length_app; simpl; lia).
  apply derive_Ok in Hd as (p & e & q & s & lv & Hp & He & Hq & Hs & Hlv & ->);
    [| done].
  simpl in *. rewrite heap_alloc_lookup in *.
  rewrite list_lookup_total_insert_eq by done.
  assert (well_formed (fillna (Float (Fin 0)) t0)) as Hwf
    by by apply fillna_well_formed.
  destruct (derived_columns _ p e q s lv Hwf Hp He Hq Hs Hlv) as (_ & Hwf' & _).
  exists t0, p, e, q, s, lv. repeat (split; [done |]).
  split; [apply setitem_columns_nonempty |].
  split; [| done].
  apply setitem_no_na_text; [by eapply levels_no_na_text |].
  apply setitem_no_na_text; [by apply Forall_fmap, Forall_true |].
  by apply fillna_no_na_text.
Qed.

(** A table with no text that reads as missing is written to a file that
    reads back to a table which, written again, gives the same file: the
    cells may change type on the way (a number in a text column comes
    back as text), the file does not. *)
Lemma written_file_is_stable t :
  well_formed t → columns t ≠ [] → no_na_text t →
  ∃ t', read_csv_text (to_csv_text t) = Ok t'
        ∧ columns t' = columns t
        ∧ frame_len t' = frame_len t
        ∧ to_csv_text t' = to_csv_text t.
Proof.
  intros Hwf Hne Hna. eexists. split; [by apply read_to_csv_text_rows |].
  split; [done |]. split; [unfold frame_len; simpl; apply length_map |].
  unfold to_csv_text. simpl. f_equal. rewrite map_map.
  unfold well_formed, no_na_text in *.
  apply map_ext_Forall. rewrite Forall_forall in *. intros r Hr.
  specialize (Hwf r Hr). specialize (Hna r Hr).
  apply list_eq. intros j.
  change (map ?f ?l) with (f <$> l). rewrite !list_lookup_fmap.
  destruct (decide (j < length (columns t))) as [Hj | Hj].
  - rewrite lookup_seq_lt by done. simpl.
    change (map render r) with (render <$> r). rewrite field_render.
    destruct (lookup_lt_is_Some_2 r j) as [v Hv]; [lia |]. rewrite Hv. simpl.
    f_equal. apply render_parse_render.
    rewrite Forall_forall in Hna. apply Hna. by eapply list_elem_of_lookup_2.
  - rewrite lookup_seq_ge by lia. simpl. symmetry.
    rewrite (proj2 (lookup_ge_None r j)); [done | lia].
Qed.


(** ** Counting the high performers *)

Lemma filter_length_pointwise {A B} (P : A → Prop) (Q : B → Prop)
    `{HP : ∀ a, Decision (P a)} `{HQ : ∀ b, Decision (Q b)}
    (l1 : list A) (l2 : list B) :
  length l1 = length l2 →
  (∀ k a b, l1 !! k = Some a → l2 !! k = Some b → (P a ↔ Q b)) →
  length (filter P l1) = length (filter Q l2).
Proof.
  revert l2. induction l1 as [| a l1 IH]; intros [| b l2] Hlen Hpq;
    simpl in *; try done.
  pose proof (Hpq 0 a b eq_refl eq_refl) as Hhead.
  assert (length (filter P l1) = length (filter Q l2)) as Hrest.
  { apply IH; [lia |]. intros k a' b' Ha Hb. by apply (Hpq (S k)). }
  destruct (decide (P a)) as [Hp | Hp].
  - rewrite filter_cons_True by done.
    rewrite (filter_cons_True Q) by by apply Hhead. simpl. by rewrite Hrest.
  - rewrite filter_cons_False by done.
    rewrite (filter_cons_False Q) by (by rewrite <- Hhead). done.
Qed.

Lemma level_is_high x :
  Str (Word (if float_ge x (qc 4.5) then "High"
             else if float_ge x (qc 3.5) then "Medium" else "Low"))
  = Str (Word "High")
  ↔ scores_high (Float x) = true.
Proof.
  simpl. destruct (float_ge x (qc 4.5)); [done |].
  destruct (float_ge x (qc 3.5)); by split.
Qed.

Lemma level_is_word x :
  (if float_ge x (qc 4.5) then "High"
   else if float_ge x (qc 3.5) then "Medium" else "Low") ∉ na_values.
Proof.
  destruct (float_ge x (qc 4.5)); [by_evaluation |].
  destruct (float_ge x (qc 3.5)); by_evaluation.
Qed.

(** X7: the [High Performers Count] served after a successful pipeline is the
    number of ingested records whose [PerformanceScore] is at least 4.5,
    and [Total Employees] is the number of ingested records: the level
    column survives the trip through the store. *)
Theorem high_performers_counted g w df w' m :
  pipeline w = (Ok df, w') →
  (get_metrics g w').1 = Ok m →
  ∃ ss,
    getitem "PerformanceScore" (heap w' !!! df) = Ok ss
    ∧ high_performers_count m = length (filter (λ v, scores_high v = true) ss)
    ∧ total_employees m = length ss.
Proof.
  intros Hpipe Hm.
  pose proof Hpipe
    as (t0 & p & e & q & ss & lv & Hwf0 & Hp & He & Hq & Hs & Hlv & Ht & Hwf & Hne
        & Hna & Hst)%pipeline_table.
  simpl in Hwf0, Hp, He, Hq, Hs, Hlv, Ht.
  destruct (derived_columns _ p e q ss lv Hwf0 Hp He Hq Hs Hlv)
    as (Hlen0 & _ & _ & Hpl & Hother).
  destruct (derived_levels _ p e q ss lv Hwf0 Hp He Hq Hs Hlv) as (Hs0 & Hall0).
  set (t := heap w' !!! df) in *.
  assert (getitem "PerformanceScore" t = Ok ss) as Hss
    by (rewrite Ht, Hother by done; done).
  assert (getitem "Performance_Level" t = Ok lv) as Hlvt by by rewrite Ht.
  assert (∀ k, k < frame_len t →
            ∃ x, ss !! k = Some (Float x)
                 ∧ lv !! k = Some (Str (Word (if float_ge x (qc 4.5) then "High"
                                              else if float_ge x (qc 3.5) then "Medium"
                                              else "Low")))) as Hall.
  { intros k Hk. apply Hall0. rewrite <- Hlen0. by rewrite <- Ht. }
  clear Hlv. rename Hlvt into Hlv.
  exists ss. split; [done |].
  rewrite get_metrics_unfold, Hst in Hm.
  rewrite read_to_csv_text_rows in Hm by done. simpl in Hm.
  set (tr := Frame _ _) in Hm.
  pose proof (metrics_of_total _ _ Hm) as Htotal.
  assert (frame_len tr = frame_len t) as Hlen
    by (unfold frame_len, tr; simpl; apply length_map).
  pose proof (getitem_length _ _ _ Hss) as Hsslen.
  pose proof (getitem_length _ _ _ Hlv) as Hlvlen.
  split; [| lia].
  assert (getitem "Performance_Level" tr = Ok lv) as Hlvr.
  { apply getitem_Ok in Hlv as (j & Hj & Hlvj). apply getitem_Ok.
    exists j. split; [done |]. rewrite Hlvj. unfold tr. cbn [rows].
    change (map ?f (rows t)) with (f <$> rows t). rewrite <- list_fmap_compose.
    apply list_eq. intros k. rewrite !list_lookup_fmap.
    destruct (rows t !! k) as [r |] eqn:Hr; [| done]. simpl. f_equal.
    assert (length r = length (columns t)) as Hrlen.
    { unfold well_formed in Hwf. rewrite Forall_forall in Hwf.
      apply Hwf. by eapply list_elem_of_lookup_2. }
    rewrite (read_back_cell _ r j (length (columns t)));
      [| done | by apply index_of_Some in Hj as [_ ?]].
    destruct (Hall k) as (x & _ & Hk).
    { apply lookup_lt_Some in Hr. by unfold frame_len. }
    rewrite Hlvj, list_lookup_fmap, Hr in Hk. injection Hk as ->.
    symmetry. apply parse_field_word, level_is_word. }
  unfold metrics_of in Hm.
  apply rbind_Ok in Hm as (a1 & _ & Hm). apply rbind_Ok in Hm as (a2 & _ & Hm).
  apply rbind_Ok in Hm as (a3 & _ & Hm). apply rbind_Ok in Hm as (a4 & _ & Hm).
  apply rbind_Ok in Hm as (a5 & _ & Hm). apply rbind_Ok in Hm as (h & Hh & Hm).
  injection Hm as <-. simpl.
  unfold high_performers_of in Hh. rewrite Hlvr in Hh. simpl in Hh.
  injection Hh as <-.
  apply filter_length_pointwise; [lia |].
  intros k a' b' Ha Hb.
  destruct (Hall k) as (x & Hx & Hk); [apply lookup_lt_Some in Hb; lia |].
  rewrite Ha in Hk. injection Hk as ->. rewrite Hb in Hx. injection Hx as ->.
  apply level_is_high.
Qed.

(** ** The order of numbers *)

Lemma float_gt_negb x y :
  isnan x = false → isnan y = false → float_gt x y = negb (float_ge y x).
Proof. by destruct x, y. Qed.

Lemma float_ge_refl x : isnan x = false → float_ge x x = true.
Proof.
  destruct x as [q | [] |]; try done. intros _. simpl.
  by apply bool_decide_eq_true_2.
Qed.

Lemma float_ge_total x y :
  isnan x = false → isnan y = false → float_ge x y = true ∨ float_ge y x = true.
Proof.
  destruct x as [a | [] |], y as [b | [] |]; simpl; try done; auto.
  intros _ _. destruct (Qclt_le_dec a b) as [H | H].
  - right. apply bool_decide_eq_true_2. by apply Qclt_le_weak.
  - left. by apply bool_decide_eq_true_2.
Qed.

Lemma float_ge_trans x y z :
  float_ge x y = true → float_ge y z = true → float_ge x z = true.
Proof.
  destruct x as [a | [] |], y as [b | [] |], z as [c | [] |]; simpl; try done.
  intros H1%bool_decide_eq_true_1 H2%bool_decide_eq_true_1.
  apply bool_decide_eq_true_2. by apply Qcle_trans with b.
Qed.

Lemma float_gt_ge_trans x y z :
  isnan z = false → float_gt x y = true → float_ge y z = true → float_gt x z = true.
Proof.
  intros Hz Hxy Hyz.
  assert (isnan x = false ∧ isnan y = false) as [Hx Hy] by by destruct x, y.
  rewrite float_gt_negb in * by done.
  apply negb_true_iff in Hxy. apply negb_true_iff.
  destruct (float_ge z x) eqn:Hzx; [| done].
  by rewrite (float_ge_trans _ _ _ Hyz Hzx) in Hxy.
Qed.

Lemma float_gt_ge x y : float_gt x y = true → float_ge x y = true.
Proof.
  intros H.
  assert (isnan x = false ∧ isnan y = false) as [Hx Hy] by by destruct x, y.
  rewrite float_gt_negb in H by done. apply negb_true_iff in H.
  by destruct (float_ge_total x y Hx Hy) as [? | ?]; [| congruence].
Qed.

(** ** The first maximum *)

Lemma first_max_step seen best x :
  first_max seen best →
  first_max (seen ++ [x])
    (if isnan x then best
     else match best with
          | None => Some (length seen, x)
          | Some (_, b) => if float_gt x b then Some (length seen, x) else best
          end).
Proof.
  intros Hinv. destruct (isnan x) eqn:Hx.
  - destruct best as [[k m] |]; simpl in *.
    + destruct Hinv as (Hk & Hm & Hall).
      split; [by apply lookup_app_l_Some |]. split; [done |].
      intros j y Hj Hy. apply lookup_app_Some in Hj as [Hj | [_ Hj]]; [eauto |].
      apply list_lookup_singleton_Some in Hj as [_ <-]. congruence.
    + apply Forall_app. split; [done | by constructor].
  - destruct best as [[k m] |]; simpl in *.
    + destruct Hinv as (Hk & Hm & Hall).
      destruct (float_gt x m) eqn:Hgt.
      * split; [by rewrite lookup_app_r, Nat.sub_diag by lia |].
        split; [done |]. intros j y Hj Hy.
        apply lookup_app_Some in Hj as [Hj | [Hge Hj]].
        -- destruct (Hall j y Hj Hy) as [Hmy _].
           pose proof (float_gt_ge_trans x m y Hy Hgt Hmy) as Hxy.
           split; [by apply float_gt_ge | done].
        -- apply list_lookup_singleton_Some in Hj as [_ <-].
           split; [by apply float_ge_refl | lia].
      * split; [by apply lookup_app_l_Some |]. split; [done |].
        intros j y Hj Hy. apply lookup_app_Some in Hj as [Hj | [Hge Hj]]; [eauto |].
        apply list_lookup_singleton_Some in Hj as [_ <-].
        rewrite float_gt_negb in Hgt by done. apply negb_false_iff in Hgt.
        split; [done |]. apply lookup_lt_Some in Hk. lia.
    + split; [by rewrite lookup_app_r, Nat.sub_diag by lia |].
      split; [done |]. intros j y Hj Hy.
      apply lookup_app_Some in Hj as [Hj | [Hge Hj]].
      * rewrite Forall_forall in Hinv.
        specialize (Hinv y ltac:(by eapply list_elem_of_lookup_2)). congruence.
      * apply list_lookup_singleton_Some in Hj as [_ <-].
        split; [by apply float_ge_refl | lia].
Qed.

Lemma argmax_from_first_max seen best xs :
  first_max seen best →
  first_max (seen ++ xs)
    (argmax_from best (imap (λ i x, (length seen + i, x)) xs)).
Proof.
  revert seen best. induction xs as [| x xs IH]; intros seen best Hinv.
  - by rewrite app_nil_r.
  - cbn [imap argmax_from]. rewrite Nat.add_0_r.
    pose proof (first_max_step seen best x Hinv) as Hstep.
    specialize (IH (seen ++ [x]) _ Hstep).
    rewrite <- app_assoc in IH. simpl in IH.
    erewrite imap_ext; [exact IH |].
    intros i y _. simpl. rewrite length_app. simpl. f_equal. lia.
Qed.

Lemma rmap_as_float s xs : rmap as_float s = Ok xs → s = Float <$> xs.
Proof.
  intros H%rmap_Ok. induction H as [| v x s xs Hv _ IH]; [done |].
  destruct v; [| done]. injection Hv as ->. simpl. by f_equal.
Qed.

Lemma idxmax_first_max s i :
  idxmax s = Ok i →
  ∃ m, s !! i = Some (Float m) ∧ isnan m = false
       ∧ ∀ j x, s !! j = Some (Float x) → isnan x = false →
                float_ge m x = true ∧ (j < i → float_gt m x = true).
Proof.
  unfold idxmax. intros (xs & Hxs & Hi)%rbind_Ok.
  apply rmap_as_float in Hxs as ->. unfold idxmax_labelled in Hi.
  pose proof (argmax_from_first_max [] None xs ltac:(by constructor)) as Hinv.
  simpl in Hinv.
  destruct (argmax_from None _) as [[k m] |]; [| done]. injection Hi as ->.
  destruct Hinv as (Hk & Hm & Hall). exists m.
  split; [by rewrite list_lookup_fmap, Hk |]. split; [done |].
  intros j x Hj Hx. apply Hall; [| done].
  rewrite list_lookup_fmap in Hj. destruct (xs !! j); [| done].
  by injection Hj as ->.
Qed.

(** X8: the top performer is the employee of the first record whose score is
    the greatest: no record has a greater score, and every earlier record
    has a smaller one (missing scores are passed over). *)
Theorem top_performer_is_first_maximum t v :
  top_performer_of t = Ok v →
  ∃ i ss names m,
    getitem "PerformanceScore" t = Ok ss
    ∧ getitem "Name" t = Ok names
    ∧ names !! i = Some v
    ∧ ss !! i = Some (Float m) ∧ isnan m = false
    ∧ ∀ j x, ss !! j = Some (Float x) → isnan x = false →
             float_ge m x = true ∧ (j < i → float_gt m x = true).
Proof.
  unfold top_performer_of. intros (ss & Hss & H)%rbind_Ok.
  apply rbind_Ok in H as (i & Hi & Hloc).
  unfold loc_at in Hloc. apply rbind_Ok in Hloc as (names & Hnames & Hv).
  destruct (names !! i) as [v' |] eqn:Hn; [| done]. injection Hv as ->.
  destruct (idxmax_first_max _ _ Hi) as (m & Hm & Hnan & Hall).
  by exists i, ss, names, m.
Qed.

(** ** The order of group keys *)

Lemma float_ge_antisym x y :
  float_ge x y = true → float_ge y x = true → x = y.
Proof.
  destruct x as [a | [] |], y as [b | [] |]; simpl; try done.
  intros H1%bool_decide_eq_true_1 H2%bool_decide_eq_true_1.
  f_equal. by apply Qcle_antisym.
Qed.

Lemma float_gt_irrefl x : float_gt x x = false.
Proof.
  destruct (isnan x) eqn:Hx; [by destruct x |].
  rewrite float_gt_negb by done. by rewrite float_ge_refl.
Qed.

Lemma float_gt_trans x y z :
  float_gt y x = true → float_gt z y = true → float_gt z x = true.
Proof.
  intros Hxy Hyz. apply float_gt_ge_trans with y; [by destruct x, y | done |].
  by apply float_gt_ge.
Qed.

Lemma float_gt_total x y :
  isnan x = false → isnan y = false → x ≠ y →
  float_gt y x = true ∨ float_gt x y = true.
Proof.
  intros Hx Hy Hne. rewrite !float_gt_negb by done.
  destruct (float_ge x y) eqn:H1; [| by left].
  destruct (float_ge y x) eqn:H2; [| by right].
  destruct Hne. by apply float_ge_antisym.
Qed.

Lemma string_ltb_lt s s' :
  String.ltb s s' = true ↔ OrderedTypeEx.String_as_OT.lt s s'.
Proof.
  rewrite <- OrderedTypeEx.String_as_OT.cmp_lt.
  unfold String.ltb, OrderedTypeEx.String_as_OT.cmp.
  by destruct (String.compare s s').
Qed.

Lemma string_ltb_irrefl s : String.ltb s s = false.
Proof.
  pose proof (proj2 (OrderedTypeEx.String_as_OT.cmp_eq s s) eq_refl) as H.
  unfold OrderedTypeEx.String_as_OT.cmp in H. unfold String.ltb. by rewrite H.
Qed.

Lemma string_ltb_trans s1 s2 s3 :
  String.ltb s1 s2 = true → String.ltb s2 s3 = true → String.ltb s1 s3 = true.
Proof.
  rewrite !string_ltb_lt. apply OrderedTypeEx.String_as_OT.lt_trans.
Qed.

Lemma string_ltb_total s s' :
  s ≠ s' → String.ltb s s' = true ∨ String.ltb s' s = true.
Proof.
  intros Hne. unfold String.ltb.
  rewrite (String.compare_antisym s' s).
  destruct (String.compare s s') eqn:Hc; simpl; auto.
  by apply String.compare_eq_iff in Hc.
Qed.

Lemma key_lt_irrefl k : key_lt k k = false.
Proof.
  destruct k as [x | [x | s]]; simpl;
    [apply float_gt_irrefl | apply float_gt_irrefl | apply string_ltb_irrefl].
Qed.

Lemma key_lt_trans a b c :
  key_lt a b = true → key_lt b c = true → key_lt a c = true.
Proof.
  destruct a as [x | [x | s]], b as [y | [y | s']], c as [z | [z | s'']];
    simpl; try done;
    solve [apply float_gt_trans | apply string_ltb_trans].
Qed.

Lemma key_lt_total a b :
  valid_key a = true → valid_key b = true → a ≠ b →
  key_lt a b = true ∨ key_lt b a = true.
Proof.
  destruct a as [x | [x | s]], b as [y | [y | s']]; simpl; auto;
    intros Ha Hb Hne.
  - apply negb_true_iff in Ha, Hb. apply float_gt_total; congruence.
  - apply negb_true_iff in Ha, Hb. apply float_gt_total; congruence.
  - apply string_ltb_total. congruence.
Qed.

(** ** Groups *)

Lemma group_insert_elem k v gs g :
  g ∈ group_insert k v gs → g ∈ gs ∨ g.1 = k.
Proof.
  induction gs as [| [k' vs] gs IH]; simpl.
  - intros ->%list_elem_of_singleton. by right.
  - case_bool_decide as Hk; [| destruct (key_lt k k')].
    + subst. intros [-> | Hin]%elem_of_cons; [by right | left; by right].
    + intros [-> | Hin]%elem_of_cons; [by right | by left].
    + intros [-> | Hin]%elem_of_cons; [left; left |].
      destruct (IH Hin) as [? | ?]; [left; by right | by right].
Qed.

Lemma sorted_keys_above k (g0 : value * series) gs :
  key_lt k g0.1 = true →
  Forall (λ g : value * series, key_lt g0.1 g.1 = true) gs →
  ∀ g, g ∈ g0 :: gs → g.1 ≠ k.
Proof.
  intros Hk Hgs g [-> | Hin]%elem_of_cons Heq.
  - rewrite Heq, key_lt_irrefl in Hk. done.
  - rewrite Forall_forall in Hgs. specialize (Hgs g Hin).
    rewrite Heq in Hgs. pose proof (key_lt_trans _ _ _ Hk Hgs) as H.
    by rewrite key_lt_irrefl in H.
Qed.

Lemma group_insert_spec k v gs :
  StronglySorted (λ a b : value * series, key_lt a.1 b.1 = true) gs →
  Forall (λ g : value * series, valid_key g.1 = true) gs →
  valid_key k = true →
  StronglySorted (λ a b : value * series, key_lt a.1 b.1 = true) (group_insert k v gs)
  ∧ Forall (λ g : value * series, valid_key g.1 = true) (group_insert k v gs)
  ∧ ∀ k' vs',
      (k', vs') ∈ group_insert k v gs ↔
      (k' ≠ k ∧ (k', vs') ∈ gs)
      ∨ (k' = k ∧ ((∃ vs, (k, vs) ∈ gs ∧ vs' = vs ++ [v])
                   ∨ ((∀ vs, (k, vs) ∉ gs) ∧ vs' = [v]))).
Proof.
  intros Hs Hv Hk. induction gs as [| [k0 vs0] gs IH].
  - simpl. split; [repeat constructor |]. split; [by repeat constructor |].
    intros k' vs'. rewrite list_elem_of_singleton. split.
    + intros [= -> ->]. right. split; [done |]. right.
      split; [| done]. intros vs. apply not_elem_of_nil.
    + intros [[_ H%elem_of_nil] | [-> [(vs & H%elem_of_nil & _) | [_ ->]]]]; done.
  - apply StronglySorted_inv in Hs as [Hs Hhead].
    apply Forall_cons in Hv as [Hv0 Hv]. simpl in Hv0.
    specialize (IH Hs Hv) as (IHs & IHv & IHe).
    cbn [group_insert]. case_bool_decide as Heq; [| destruct (key_lt k k0) eqn:Hlt].
    + subst k0. split; [by constructor |]. split; [by constructor |].
      assert (∀ g, g ∈ gs → g.1 ≠ k) as Hrest.
      { intros g Hin Hg. rewrite Forall_forall in Hhead.
        specialize (Hhead g Hin). simpl in Hhead.
        by rewrite Hg, key_lt_irrefl in Hhead. }
      intros k' vs'. rewrite !elem_of_cons. split.
      * intros [[= -> ->] | Hin].
        -- right. split; [done |]. left. exists vs0. split; [by left | done].
        -- left. split; [apply (Hrest _ Hin) | by right].
      * intros [[Hne [[= -> ->] | Hin]] | [-> [(vs & [[= ->] | Hin]%elem_of_cons & ->) | [Hno ->]]]].
        -- done.
        -- by right.
        -- by left.
        -- destruct (Hrest _ Hin eq_refl).
        -- destruct (Hno vs0). by left.
    + pose proof (sorted_keys_above k (k0, vs0) gs Hlt Hhead) as Habove.
      split.
      { constructor; [by constructor |]. constructor; [done |].
        rewrite Forall_forall in *. intros g Hin. specialize (Hhead g Hin).
        simpl in *. by apply key_lt_trans with k0. }
      split; [by repeat constructor |].
      intros k' vs'. rewrite elem_of_cons. split.
      * intros [[= -> ->] | Hin].
        -- right. split; [done |]. right. split; [| done].
           intros vs Hin. by apply (Habove _ Hin).
        -- left. split; [apply (Habove _ Hin) | done].
      * intros [[_ Hin] | [-> [(vs & Hin & _) | [_ ->]]]].
        -- by right.
        -- destruct (Habove _ Hin eq_refl).
        -- by left.
    + assert (key_lt k0 k = true) as Hgt.
      { destruct (key_lt_total k0 k Hv0 Hk Heq) as [? | ?]; [done | congruence]. }
      split.
      { constructor; [done |]. rewrite Forall_forall in *. intros g Hin.
        destruct (group_insert_elem _ _ _ _ Hin) as [Hg | Hg];
          [by apply Hhead | by rewrite Hg]. }
      split; [by constructor |].
      intros k' vs'. rewrite elem_of_cons, IHe, elem_of_cons. split.
      * intros [[= -> ->] | [[Hne Hin] | [-> [(vs & Hin & ->) | [Hno ->]]]]].
        -- left. split; [done | by left].
        -- left. split; [done | by right].
        -- right. split; [done |]. left. exists vs. split; [by right | done].
        -- right. split; [done |]. right. split; [| done].
           intros vs [[= ? ?] | Hin]%elem_of_cons; [done | by apply (Hno vs)].
      * intros [[Hne [[= -> ->] | Hin]] | [-> [(vs & [[= ? ?] | Hin]%elem_of_cons & ->) | [Hno ->]]]].
        -- by left.
        -- right. left. done.
        -- done.
        -- right. right. split; [done |]. left. by exists vs.
        -- right. right. split; [done |]. right. split; [| done].
           intros vs Hin. apply (Hno vs). by right.
Qed.

Lemma valid_key_or_missing v :
  na_text v = false → v = Float NaN ∨ valid_key v = true.
Proof.
  destruct v as [[q | n |] | [x | s]]; simpl; auto.
  intros ->. by right.
Qed.

Lemma filter_none {A} (P : A → Prop) `{HP : ∀ x, Decision (P x)} (l : list A) :
  Forall (λ x, ¬ P x) l → filter P l = [].
Proof.
  induction 1 as [| x l Hx _ IH]; [done |]. by rewrite filter_cons_False.
Qed.

Lemma groups_step_missing gs v :
  (match (Float NaN, v).1 with
   | Float NaN => gs
   | k => group_insert k (Float NaN, v).2 gs
   end) = gs.
Proof. done. Qed.

Lemma groups_step_valid gs k v :
  k ≠ Float NaN →
  (match (k, v).1 with
   | Float NaN => gs
   | k' => group_insert k' (k, v).2 gs
   end) = group_insert k v gs.
Proof. by destruct k as [[] |]. Qed.

(** What the groups are after the rows [pre] were added: sorted by key,
    one group for each key that occurs and is not missing, holding the
    cells of its rows in row order. *)
Lemma groups_invariant (pre rest : list (value * value)) gs :
  Forall (λ kv, kv.1 = Float NaN ∨ valid_key kv.1 = true) rest →
  (StronglySorted (λ a b : value * series, key_lt a.1 b.1 = true) gs
   ∧ Forall (λ g : value * series, valid_key g.1 = true) gs
   ∧ (∀ k vs, (k, vs) ∈ gs →
        vs = (filter (λ kv, kv.1 = k) pre).*2 ∧ k ∈ pre.*1)
   ∧ (∀ kv, kv ∈ pre → kv.1 ≠ Float NaN → ∃ vs, (kv.1, vs) ∈ gs)) →
  let gs' := foldl (λ gs kv,
                      match kv.1 with
                      | Float NaN => gs
                      | k => group_insert k kv.2 gs
                      end) gs rest in
  StronglySorted (λ a b : value * series, key_lt a.1 b.1 = true) gs'
  ∧ Forall (λ g : value * series, valid_key g.1 = true) gs'
  ∧ (∀ k vs, (k, vs) ∈ gs' →
       vs = (filter (λ kv, kv.1 = k) (pre ++ rest)).*2 ∧ k ∈ (pre ++ rest).*1)
  ∧ (∀ kv, kv ∈ pre ++ rest → kv.1 ≠ Float NaN → ∃ vs, (kv.1, vs) ∈ gs').
Proof.
  intros Hrest. revert pre gs.
  induction Hrest as [| [k v] rest Hk Hrest IH]; intros pre gs Hinv.
  { simpl. by rewrite app_nil_r. }
  cbn [foldl]. replace (pre ++ (k, v) :: rest) with ((pre ++ [(k, v)]) ++ rest)
    by by rewrite <- app_assoc.
  apply IH. clear IH. destruct Hinv as (Hs & Hv & Hmem & Hall).
  destruct Hk as [Hk | Hk]; simpl in Hk.
  - subst k. rewrite groups_step_missing.
    split; [done |]. split; [done |]. split.
    + intros k vs Hin. destruct (Hmem k vs Hin) as [-> Hkin].
      assert (k ≠ Float NaN) as Hne.
      { intros ->. rewrite Forall_forall in Hv. by specialize (Hv _ Hin). }
      rewrite filter_app, filter_cons_False, filter_nil, app_nil_r by (simpl; congruence).
      split; [done |]. rewrite fmap_app. apply elem_of_app. by left.
    + intros kv [Hin | ->%list_elem_of_singleton]%elem_of_app Hne; [by apply Hall | done].
  - assert (k ≠ Float NaN) as Hne by (by intros ->).
    rewrite groups_step_valid by done.
    destruct (group_insert_spec k v gs Hs Hv Hk) as (Hs' & Hv' & He').
    split; [done |]. split; [done |]. split.
    + intros k' vs' [[Hk' Hin] | [-> Hcase]]%He'.
      * destruct (Hmem k' vs' Hin) as [-> Hkin].
        rewrite filter_app, filter_cons_False, filter_nil, app_nil_r by (simpl; congruence).
        split; [done |]. rewrite fmap_app. apply elem_of_app. by left.
      * rewrite filter_app, filter_cons_True, filter_nil by done.
        rewrite !fmap_app. simpl.
        split; [| apply elem_of_app; right; by left].
        destruct Hcase as [(vs & Hin & ->) | [Hno ->]].
        -- by destruct (Hmem k vs Hin) as [-> _].
        -- replace (filter (λ kv, kv.1 = k) pre) with (@nil (value * value)); [done |].
           symmetry. apply filter_none. apply Forall_forall.
           intros [k0 v0] Hin Heq. simpl in Heq. subst k0.
           destruct (Hall _ Hin Hne) as [vs Hvs]. by apply (Hno vs).
    + intros kv [Hin | ->%list_elem_of_singleton]%elem_of_app Hkv.
      * destruct (Hall kv Hin Hkv) as [vs Hvs].
        destruct (decide (kv.1 = k)) as [Heq | Heq].
        -- exists (vs ++ [v]). apply He'. right. split; [done |]. left.
           exists vs. by rewrite <- Heq.
        -- exists vs. apply He'. by left.
      * simpl.
        destruct (decide (k ∈ gs.*1)) as [Hin | Hin].
        -- apply list_elem_of_fmap in Hin as ([k0 vs] & -> & Hin). simpl.
           exists (vs ++ [v]). apply He'. right. split; [done |]. left. by exists vs.
        -- exists [v]. apply He'. right. split; [done |]. right. split; [| done].
           intros vs Hvs. apply Hin. apply list_elem_of_fmap. by exists (k, vs).
Qed.

Lemma groups_spec keys vals :
  length keys = length vals →
  Forall (λ k, k = Float NaN ∨ valid_key k = true) keys →
  StronglySorted (λ a b : value * series, key_lt a.1 b.1 = true) (groups keys vals)
  ∧ (∀ k vs, (k, vs) ∈ groups keys vals → vs = members k keys vals)
  ∧ (∀ k, k ∈ (groups keys vals).*1 ↔ k ∈ keys ∧ k ≠ Float NaN).
Proof.
  intros Hlen Hkeys.
  assert ((zip keys vals).*1 = keys) as Hfst by (apply fst_zip; lia).
  destruct (groups_invariant [] (zip keys vals) [])
    as (Hs & Hv & Hmem & Hall).
  { apply Forall_forall. intros [k v] Hin. simpl.
    rewrite Forall_forall in Hkeys. apply Hkeys. rewrite <- Hfst.
    apply list_elem_of_fmap. by exists (k, v). }
  { split; [constructor |]. split; [constructor |].
    split; [by intros k vs H%elem_of_nil | by intros kv H%elem_of_nil]. }
  simpl in Hmem, Hall. fold (groups keys vals) in *.
  split; [done |]. split; [intros k vs Hin; by apply Hmem |].
  intros k. split.
  - intros ([k0 vs] & -> & Hin)%list_elem_of_fmap. simpl.
    destruct (Hmem _ _ Hin) as [_ Hk]. rewrite Hfst in Hk. split; [done |].
    intros ->. rewrite Forall_forall in Hv. by specialize (Hv _ Hin).
  - intros [Hin Hne]. rewrite <- Hfst in Hin.
    apply list_elem_of_fmap in Hin as ([k0 v] & -> & Hin).
    destruct (Hall _ Hin Hne) as [vs Hvs].
    apply list_elem_of_fmap. by exists (k0, vs).
Qed.

(** ** The department means *)

Lemma sorted_keys_NoDup (ks : list value) :
  StronglySorted (λ a b, key_lt a b = true) ks → NoDup ks.
Proof.
  induction 1 as [| k ks _ IH Hk]; constructor; [| done].
  intros Hin. rewrite Forall_forall in Hk. specialize (Hk k Hin).
  by rewrite key_lt_irrefl in Hk.
Qed.

Lemma column_keys t c keys :
  well_formed t → no_na_text t → getitem c t = Ok keys →
  Forall (λ k, k = Float NaN ∨ valid_key k = true) keys.
Proof.
  unfold well_formed, no_na_text. intros Hwf Hna (j & Hj & ->)%getitem_Ok.
  apply index_of_Some in Hj as [_ Hj].
  apply Forall_fmap, Forall_forall. intros r Hr. simpl.
  rewrite Forall_forall in Hwf, Hna. specialize (Hwf r Hr). specialize (Hna r Hr).
  apply valid_key_or_missing. unfold cell.
  destruct (lookup_lt_is_Some_2 r j) as [v Hv]; [lia |]. rewrite Hv. simpl.
  rewrite Forall_forall in Hna. apply Hna. by eapply list_elem_of_lookup_2.
Qed.

Lemma department_stats_of_spec t ds :
  well_formed t → no_na_text t →
  department_stats_of t = Ok ds →
  ∃ keys vals,
    getitem "Department" t = Ok keys
    ∧ getitem "PerformanceScore" t = Ok vals
    ∧ StronglySorted (λ a b, key_lt a b = true) ds.*1
    ∧ (∀ k, k ∈ ds.*1 ↔ k ∈ keys ∧ k ≠ Float NaN)
    ∧ (∀ k m, (k, m) ∈ ds →
         ∃ m0, mean (members k keys vals) = Ok m0 ∧ m = round2 m0).
Proof.
  intros Hwf Hna. unfold department_stats_of, groupby_mean.
  intros (gm & Hgm & [= <-])%rbind_Ok.
  apply rbind_Ok in Hgm as (keys & Hkeys & Hgm).
  apply rbind_Ok in Hgm as (vals & Hvals & Hgm).
  assert (getitem "PerformanceScore" t = Ok vals) as Hvals'.
  { by destruct (getitem "PerformanceScore" t); [injection Hvals as -> |]. }
  clear Hvals. apply rmap_Ok in Hgm.
  destruct (groups_spec keys vals) as (Hs & Hmem & Hdom).
  { apply getitem_length in Hkeys, Hvals'. lia. }
  { by eapply column_keys. }
  assert (Forall2 (λ (g : value * series) (y : value * float),
                     y.1 = g.1 ∧ mean g.2 = Ok y.2) (groups keys vals) gm) as Hrel.
  { eapply Forall2_impl; [done |]. simpl. intros [k vs] [k' m] H. simpl in *.
    apply rbind_Ok in H as (m0 & Hm0 & [= <- <-]). done. }
  assert ((map (λ g : value * float, (g.1, round2 g.2)) gm).*1
          = (groups keys vals).*1) as Hfst.
  { clear -Hrel. induction Hrel as [| g y gs gm [Hy _] _ IH]; [done |].
    simpl. rewrite Hy. f_equal. exact IH. }
  exists keys, vals. split; [done |]. split; [done |].
  rewrite Hfst. split; [| split; [done |]].
  - eapply StronglySorted_fmap; [| done]. by intros [] [].
  - intros k m ([k' m0] & [= <- <-] & Hin)%list_elem_of_In%in_map_iff.
    simpl. apply list_elem_of_In in Hin.
    apply list_elem_of_lookup in Hin as [i Hi].
    destruct (Forall2_lookup_r _ _ _ _ _ Hrel Hi) as ([k vs] & Hg & Hk & Hmean).
    simpl in *. subst k'. exists m0. split; [| done].
    by rewrite <- (Hmem k vs) by by eapply list_elem_of_lookup_2.
Qed.

Lemma get_department_stats_Ok g w ds :
  (get_department_stats g w).1 = Ok ds →
  ∃ c t, fs w !! store_path = Some c ∧ read_csv_text c = Ok t
         ∧ well_formed t ∧ no_na_text t ∧ department_stats_of t = Ok ds.
Proof.
  rewrite get_department_stats_unfold.
  destruct (fs w !! store_path) as [c |]; [| done].
  destruct (read_csv_text c) as [t |] eqn:Ht; [| done]. simpl. intros Hds.
  exists c, t. pose proof Ht as (_ & _ & Hwf & _)%read_csv_text_Ok.
  by pose proof (read_csv_text_no_na_text _ _ Ht).
Qed.



(** ** The queries over a store with no record *)


(** * Properties of the dashboard *)

(** ** Sentiment labels *)

Lemma float_gt_finite (a b : Qc) : float_gt (Fin a) (Fin b) = true ↔ (b < a)%Qc.
Proof.
  simpl. rewrite negb_true_iff, bool_decide_eq_false. split.
  - apply Qcnot_le_lt.
  - apply Qclt_not_le.
Qed.

Lemma float_gt_asym x y : float_gt x y = true → float_gt y x = false.
Proof.
  intros H. destruct (float_gt y x) eqn:H'; [| done].
  pose proof (float_gt_trans _ _ _ H H') as Hxx.
  by rewrite float_gt_irrefl in Hxx.
Qed.

(** X12: the label of a feedback: [Positive] exactly above 0.2, [Negative]
    exactly below -0.2, [Neutral] exactly from -0.2 to 0.2, both ends
    included; a polarity that is NaN is [Neutral]. *)
Theorem sentiment_label_partition :
  (∀ q : Qc,
      (sentiment_label (Fin q) = "Positive" ↔ (Q2Qc 0.2 < q)%Qc)
      ∧ (sentiment_label (Fin q) = "Negative" ↔ (q < Q2Qc (-0.2))%Qc)
      ∧ (sentiment_label (Fin q) = "Neutral"
         ↔ (Q2Qc (-0.2) ≤ q)%Qc ∧ (q ≤ Q2Qc 0.2)%Qc))
  ∧ sentiment_label NaN = "Neutral"
  ∧ sentiment_label (Inf false) = "Positive"
  ∧ sentiment_label (Inf true) = "Negative".
Proof.
  split; [| by repeat split].
  intros q. unfold sentiment_label.
  assert (Q2Qc (-0.2) < Q2Qc 0.2)%Qc as Hord by by_evaluation.
  destruct (float_gt (Fin q) (qc 0.2)) eqn:Hhi.
  - apply float_gt_finite in Hhi. repeat split; try done.
    + intros Hlo. destruct (Qclt_not_le _ _ Hhi).
      apply Qclt_le_weak. by apply Qclt_trans with (Q2Qc (-0.2)).
    + intros [_ Hle]. by destruct (Qclt_not_le _ _ Hhi).
  - assert (q ≤ Q2Qc 0.2)%Qc as Hle.
    { apply Qcnot_lt_le. intros H%float_gt_finite. unfold qc in Hhi. congruence. }
    destruct (float_gt (qc (-0.2)) (Fin q)) eqn:Hlo.
    + apply float_gt_finite in Hlo. repeat split; try done.
      * intros H. by destruct (Qclt_not_le _ _ H).
      * intros [H _]. by destruct (Qclt_not_le _ _ Hlo).
    + assert (Q2Qc (-0.2) ≤ q)%Qc as Hge.
      { apply Qcnot_lt_le. intros H%float_gt_finite. unfold qc in Hlo. congruence. }
      repeat split; try done.
      * intros H. by destruct (Qclt_not_le _ _ H).
      * intros H. by destruct (Qclt_not_le _ _ H).
Qed.

(** X13: the label of a feedback (line 47) and the label of the average (line
    133) draw the lower line differently: they name the same class for
    every polarity except exactly -0.2 and NaN, which line 47 calls
    [Neutral] and line 133 calls [Negative]. *)
Theorem sentiment_labels_differ_at_boundary x :
  (sentiment_label x = "Positive" ↔ average_sentiment_label x = "😊 Positive")
  ∧ (x ≠ qc (-0.2) → x ≠ NaN →
     (sentiment_label x = "Neutral" ↔ average_sentiment_label x = "😐 Neutral")
     ∧ (sentiment_label x = "Negative"
        ↔ average_sentiment_label x = "😞 Negative"))
  ∧ (x = qc (-0.2) ∨ x = NaN →
     sentiment_label x = "Neutral"
     ∧ average_sentiment_label x = "😞 Negative").
Proof.
  unfold sentiment_label, average_sentiment_label. split; [| split].
  - destruct (float_gt x (qc 0.2)); [done |].
    destruct (float_gt (qc (-0.2)) x), (float_gt x (qc (-0.2))); by split.
  - intros Hne Hnan.
    destruct (float_gt x (qc 0.2)); [by split; split |].
    assert (isnan x = false) as Hx by by destruct x.
    destruct (float_gt_total x (qc (-0.2)) Hx eq_refl Hne) as [H | H].
    + rewrite H, (float_gt_asym _ _ H). by split; split.
    + rewrite H, (float_gt_asym _ _ H). by split; split.
  - intros [-> | ->]; by vm_compute.
Qed.

(** ** Filters *)

Lemma Forall_sublist {A} (P : A → Prop) (l' l : list A) :
  l' `sublist_of` l → Forall P l → Forall P l'.
Proof.
  induction 1 as [| x l1 l2 _ IH | x l1 l2 _ IH]; intros H; [done | |].
  - apply Forall_cons in H as [? ?]. constructor; [done | by apply IH].
  - apply Forall_cons in H as [? ?]. by apply IH.
Qed.

Lemma masked_sublist {A} (l : list A) (m : list bool) :
  (filter (λ rm, rm.2 = true) (zip l m)).*1 `sublist_of` l.
Proof.
  revert m. induction l as [| r l IH]; intros [| b m]; simpl;
    try (by apply sublist_nil_l).
  destruct b.
  - rewrite filter_cons_True by done. simpl. by apply sublist_skip.
  - rewrite filter_cons_False by done. by apply sublist_cons.
Qed.

Lemma masked_Forall {A} (P : A → Prop) (l : list A) (m : list bool) :
  (∀ i r, l !! i = Some r → m !! i = Some true → P r) →
  Forall P (filter (λ rm, rm.2 = true) (zip l m)).*1.
Proof.
  revert m. induction l as [| r l IH]; intros [| b m] H; simpl;
    try by constructor.
  assert (∀ i r', l !! i = Some r' → m !! i = Some true → P r') as Hrest
    by (intros i r' ? ?; by apply (H (S i))).
  destruct b.
  - rewrite filter_cons_True by done. simpl.
    constructor; [by apply (H 0) | by apply IH].
  - rewrite filter_cons_False by done. by apply IH.
Qed.

Lemma masked_all {A} (l : list A) (m : list bool) :
  length m = length l → Forall (λ b, b = true) m →
  (filter (λ rm, rm.2 = true) (zip l m)).*1 = l.
Proof.
  revert m. induction l as [| r l IH]; intros [| b m] Hlen Hm; simpl in *;
    try done.
  apply Forall_cons in Hm as [-> Hm].
  rewrite filter_cons_True by done. simpl. f_equal. apply IH; [lia | done].
Qed.

Lemma select_all t m :
  length m = frame_len t → Forall (λ b, b = true) m → select m t = t.
Proof.
  intros Hlen Hm. destruct t as [cs rs]. unfold select. simpl.
  f_equal. by apply masked_all.
Qed.

Lemma cell_ge_lookup k (s : series) m i v :
  rmap (cell_ge k) s = Ok m → s !! i = Some v →
  ∃ x, v = Float x ∧ m !! i = Some (float_ge x k).
Proof.
  intros H%rmap_Ok Hv.
  destruct (Forall2_lookup_l _ _ _ _ _ H Hv) as (b & Hb & Hc).
  destruct v as [x |]; [| done]. injection Hc as <-. eauto.
Qed.

Lemma cell_le_lookup k (s : series) m i v :
  rmap (cell_le k) s = Ok m → s !! i = Some v →
  ∃ x, v = Float x ∧ m !! i = Some (float_ge k x).
Proof.
  intros H%rmap_Ok Hv.
  destruct (Forall2_lookup_l _ _ _ _ _ H Hv) as (b & Hb & Hc).
  destruct v as [x |]; [| done]. injection Hc as <-. eauto.
Qed.

Lemma rmap_all_true {A} (f : A → result bool) (l : list A) :
  Forall (λ x, f x = Ok true) l → rmap f l = Ok (replicate (length l) true).
Proof.
  induction 1 as [| x l Hx _ IH]; [done |]. simpl. by rewrite Hx, IH.
Qed.

Lemma zip_with_andb_true n :
  zip_with andb (replicate n true) (replicate n true) = replicate n true.
Proof. induction n; simpl; by f_equal. Qed.

(** What the range filters keep. *)
Lemma filter_ranges_sound er pr t t' :
  filter_ranges er pr t = Ok t' →
  columns t' = columns t
  ∧ rows t' `sublist_of` rows t
  ∧ ∃ iE iP,
      index_of "ExperienceYears" (columns t) = Some iE
      ∧ index_of "PerformanceScore" (columns t) = Some iP
      ∧ Forall (λ r, in_ranges er pr (cell iE r) (cell iP r)) (rows t').
Proof.
  unfold filter_ranges. intros (e & He & H)%rbind_Ok.
  apply rbind_Ok in H as (m1 & Hm1 & H). apply rbind_Ok in H as (m2 & Hm2 & H).
  apply rbind_Ok in H as (p & Hp & H). apply rbind_Ok in H as (m3 & Hm3 & H).
  apply rbind_Ok in H as (m4 & Hm4 & [= <-]).
  split; [done |]. split; [apply masked_sublist |].
  apply getitem_Ok in He as (iE & HiE & ->), Hp as (iP & HiP & ->).
  exists iE, iP. split; [done |]. split; [done |].
  apply masked_Forall. intros i r Hr Hmask.
  apply lookup_zip_with_Some in Hmask as (b123 & b4 & Hb & H123 & H4).
  apply lookup_zip_with_Some in H123 as (b12 & b3 & -> & H12 & H3).
  apply lookup_zip_with_Some in H12 as (b1 & b2 & -> & H1 & H2).
  symmetry in Hb. apply andb_true_iff in Hb as [Hb ->].
  apply andb_true_iff in Hb as [Hb ->]. apply andb_true_iff in Hb as [-> ->].
  assert ((cell iE <$> rows t) !! i = Some (cell iE r)) as HeI
    by by rewrite list_lookup_fmap, Hr.
  assert ((cell iP <$> rows t) !! i = Some (cell iP r)) as HpI
    by by rewrite list_lookup_fmap, Hr.
  destruct (cell_ge_lookup _ _ _ _ _ Hm1 HeI) as (x & Hx & Hx1).
  destruct (cell_le_lookup _ _ _ _ _ Hm2 HeI) as (x' & Hx' & Hx2).
  destruct (cell_ge_lookup _ _ _ _ _ Hm3 HpI) as (y & Hy & Hy1).
  destruct (cell_le_lookup _ _ _ _ _ Hm4 HpI) as (y' & Hy' & Hy2).
  rewrite Hx in Hx'. injection Hx' as <-. rewrite Hy in Hy'. injection Hy' as <-.
  exists x, y. repeat split; try done; congruence.
Qed.

(** A table whose rows all pass is left as it is. *)
Lemma filter_ranges_id er pr t iE iP :
  index_of "ExperienceYears" (columns t) = Some iE →
  index_of "PerformanceScore" (columns t) = Some iP →
  Forall (λ r, in_ranges er pr (cell iE r) (cell iP r)) (rows t) →
  filter_ranges er pr t = Ok t.
Proof.
  intros HiE HiP Hall. unfold filter_ranges, getitem. rewrite HiE, HiP. cbn [rbind].
  rewrite (rmap_all_true (cell_ge _)).
  2:{ apply Forall_fmap. eapply Forall_impl; [done |]. simpl.
      intros r (x & y & Hx & Hy & H1 & H2 & H3 & H4). rewrite Hx. cbn [cell_ge cell_le]. by rewrite H1. }
  cbn [rbind]. rewrite (rmap_all_true (cell_le _)).
  2:{ apply Forall_fmap. eapply Forall_impl; [done |]. simpl.
      intros r (x & y & Hx & Hy & H1 & H2 & H3 & H4). rewrite Hx. cbn [cell_ge cell_le]. by rewrite H2. }
  cbn [rbind]. rewrite (rmap_all_true (cell_ge _)).
  2:{ apply Forall_fmap. eapply Forall_impl; [done |]. simpl.
      intros r (x & y & Hx & Hy & H1 & H2 & H3 & H4). rewrite Hy. cbn [cell_ge cell_le]. by rewrite H3. }
  cbn [rbind]. rewrite (rmap_all_true (cell_le _)).
  2:{ apply Forall_fmap. eapply Forall_impl; [done |]. simpl.
      intros r (x & y & Hx & Hy & H1 & H2 & H3 & H4). rewrite Hy. cbn [cell_ge cell_le]. by rewrite H4. }
  cbn [rbind]. rewrite !length_fmap, !zip_with_andb_true. f_equal.
  apply select_all; [apply length_replicate | apply Forall_replicate; done].
Qed.

Lemma filter_department_sound sel t t' :
  filter_department sel t = Ok t' →
  columns t' = columns t
  ∧ rows t' `sublist_of` rows t
  ∧ (sel = Str (Word "All")
     ∨ ∃ iD, index_of "Department" (columns t) = Some iD
             ∧ Forall (λ r, cell_eq (cell iD r) sel = true) (rows t')).
Proof.
  unfold filter_department. case_bool_decide as Hsel.
  - intros [= <-]. split; [done |]. split; [done | by left].
  - intros (d & Hd & [= <-])%rbind_Ok.
    split; [done |]. split; [apply masked_sublist |]. right.
    apply getitem_Ok in Hd as (iD & HiD & ->). exists iD. split; [done |].
    apply masked_Forall. intros i r Hr Hm.
    change (map ?f ?l) with (f <$> l) in Hm.
    by rewrite !list_lookup_fmap, Hr in Hm; injection Hm.
Qed.

Lemma filter_department_id sel t :
  (sel = Str (Word "All")
   ∨ ∃ iD, index_of "Department" (columns t) = Some iD
           ∧ Forall (λ r, cell_eq (cell iD r) sel = true) (rows t)) →
  filter_department sel t = Ok t.
Proof.
  unfold filter_department. intros [-> | (iD & HiD & Hall)].
  - by rewrite bool_decide_eq_true_2.
  - case_bool_decide; [done |]. unfold getitem. rewrite HiD. simpl.
    f_equal. apply select_all.
    + by rewrite length_map, length_fmap.
    + apply Forall_map, Forall_fmap. eapply Forall_impl; [done |]. done.
Qed.

(** X14: the rows shown are rows of the data, in their order, each within the
    chosen ranges of experience and performance (so a row whose experience
    or score is missing is never shown) and, unless [All] is chosen, of
    the chosen department; there are no more of them than rows of data. *)
Theorem filtered_rows_pass sel er pr df t :
  apply_filters sel er pr df = Ok t →
  columns t = columns df
  ∧ rows t `sublist_of` rows df
  ∧ frame_len t ≤ frame_len df
  ∧ (∃ es ps,
       getitem "ExperienceYears" t = Ok es
       ∧ getitem "PerformanceScore" t = Ok ps
       ∧ Forall2 (in_ranges er pr) es ps)
  ∧ (sel ≠ Str (Word "All") →
     ∃ ds, getitem "Department" t = Ok ds
           ∧ Forall (λ d, d = sel ∧ d ≠ Float NaN) ds).
Proof.
  unfold apply_filters. intros (t1 & H1 & H2)%rbind_Ok.
  destruct (filter_department_sound _ _ _ H1) as (Hc1 & Hs1 & Hd).
  destruct (filter_ranges_sound _ _ _ _ H2) as (Hc2 & Hs2 & iE & iP & HiE & HiP & Hr).
  split; [congruence |].
  assert (rows t `sublist_of` rows df) as Hsub by by etrans.
  split; [done |]. split; [by apply sublist_length |].
  split.
  - exists (cell iE <$> rows t), (cell iP <$> rows t).
    unfold getitem. rewrite Hc2, HiE, HiP. split; [done |]. split; [done |].
    apply Forall2_fmap_2. clear -Hr. induction Hr; by constructor.
  - intros Hsel. destruct Hd as [-> | (iD & HiD & Hall)]; [done |].
    exists (cell iD <$> rows t). unfold getitem. rewrite Hc2, Hc1, HiD.
    split; [done |]. apply Forall_fmap.
    eapply Forall_impl; [exact (Forall_sublist _ _ _ Hs2 Hall) |]. simpl.
    intros r Heq. unfold cell_eq in Heq.
    destruct (cell iD r) as [[] |], sel as [[] |];
      try done; by apply bool_decide_eq_true_1 in Heq.
Qed.

(** X15: filtering what was already filtered by the same choices changes
    nothing. *)
Theorem apply_filters_idempotent sel er pr df t :
  apply_filters sel er pr df = Ok t →
  apply_filters sel er pr t = Ok t.
Proof.
  unfold apply_filters. intros (t1 & H1 & H2)%rbind_Ok.
  destruct (filter_department_sound _ _ _ H1) as (Hc1 & Hs1 & Hd).
  destruct (filter_ranges_sound _ _ _ _ H2) as (Hc2 & Hs2 & iE & iP & HiE & HiP & Hr).
  rewrite filter_department_id.
  - simpl. apply filter_ranges_id with iE iP; [by rewrite Hc2 | by rewrite Hc2 | done].
  - destruct Hd as [-> | (iD & HiD & Hall)]; [by left | right].
    exists iD. split; [congruence |]. exact (Forall_sublist _ _ _ Hs2 Hall).
Qed.

(** ** The PDF export *)

Section ExportProperties.

Variable row_text : list string → list value → result string.

Lemma draw_rows_no_break cs rs y :
  (50 ≤ y - 15 * Z.of_nat (length rs))%Z →
  draw_rows row_text cs rs y =
  (ss <- rmap (row_text cs) rs ;;
   Ok (imap (λ k s, DrawString 50 (y - 15 * Z.of_nat k) (RowText s)) ss))%result.
Proof.
  revert y. induction rs as [| r rs IH]; intros y Hy; [done |].
  cbn [draw_rows rmap]. destruct (row_text cs r) as [s |]; [| done].
  cbn [rbind]. cbn [length] in Hy.
  rewrite bool_decide_eq_false_2 by lia.
  rewrite IH by lia. destruct (rmap (row_text cs) rs) as [ss |]; [| done].
  cbn [rbind imap app]. rewrite Z.mul_0_r, Z.sub_0_r. do 2 f_equal.
  apply imap_ext. intros k s' _. simpl. f_equal. lia.
Qed.

(** X16: the report never runs to a second page: it draws the title, the
    department, the number of rows selected (all of them, however many),
    and then at most the first 25 rows, the row at position [k] at
    height [710 - 15 k]; the lowest is at 350. *)
Theorem export_to_pdf_one_page sel t ops :
  export_to_pdf row_text sel t = Ok ops →
  ∃ ss,
    rmap (row_text (columns t)) (take 25 (rows t)) = Ok ss
    ∧ length ss = (25 `min` frame_len t)
    ∧ ops = [ SetFont "Helvetica-Bold" 14;
              DrawString 50 770 (Text "Performance Pulse Dashboard - Report");
              SetFont "Helvetica" 10;
              DrawString 50 750 (DepartmentFilter sel);
              DrawString 50 735
                (Text ("Employees Shown: " +:+ pretty (frame_len t))) ]
            ++ imap (λ k s, DrawString 50 (710 - 15 * Z.of_nat k) (RowText s)) ss
            ++ [Save]
    ∧ (ShowPage ∉ ops)
    ∧ ∀ x y s, DrawString x y (RowText s) ∈ ops → (350 ≤ y ≤ 710)%Z.
Proof.
  unfold export_to_pdf. intros (body & Hbody & [= <-])%rbind_Ok.
  rewrite draw_rows_no_break in Hbody
    by (rewrite length_take; unfold frame_len; lia).
  apply rbind_Ok in Hbody as (ss & Hss & [= <-]).
  pose proof (rmap_length _ _ _ Hss) as Hlen. rewrite length_take in Hlen.
  exists ss. split; [done |]. split; [done |]. split; [done |].
  assert (∀ op, op ∈ imap (λ k s, DrawString 50 (710 - 15 * Z.of_nat k) (RowText s)) ss →
                ∃ k s, k < length ss ∧ op = DrawString 50 (710 - 15 * Z.of_nat k) (RowText s))
    as Hrows.
  { intros op (k & s & -> & Hk)%elem_of_lookup_imap.
    exists k, s. split; [by eapply lookup_lt_Some | done]. }
  split.
  - intros Hin.
    do 5 (apply elem_of_cons in Hin as [Hin | Hin]; [done |]).
    apply elem_of_app in Hin as [Hin | Hin%list_elem_of_singleton]; [| done].
    by destruct (Hrows _ Hin) as (k & s & _ & ?).
  - intros x y s Hin.
    do 5 (apply elem_of_cons in Hin as [Hin | Hin]; [done |]).
    apply elem_of_app in Hin as [Hin | Hin%list_elem_of_singleton]; [| done].
    destruct (Hrows _ Hin) as (k & s' & Hk & [= -> -> ->]). lia.
Qed.

End ExportProperties.

(** ** The salary tile *)

Lemma float_sum_finite (xs : list float) (acc : Qc) :
  Forall (λ x, ∃ q, x = Fin q) xs → ∃ q, foldl float_add (Fin acc) xs = Fin q.
Proof.
  intros H. revert acc. induction H as [| x xs [q ->] _ IH]; intros acc; simpl;
    [eauto | apply IH].
Qed.

Lemma count_nonzero n : Q2Qc (inject_Z (Z.of_nat (S n))) ≠ 0%Qc.
Proof.
  intros H. apply (f_equal this) in H. simpl in H.
  assert (inject_Z (Z.of_nat (S n)) == 0)%Q as Hq.
  { rewrite <- (Qred_correct (inject_Z (Z.of_nat (S n)))). by rewrite H. }
  unfold Qeq in Hq. simpl in Hq. lia.
Qed.

Lemma float_mean_finite_or_missing (xs : list float) :
  Forall (λ x, ∀ b, x ≠ Inf b) xs →
  (float_mean xs = NaN ↔ Forall (λ x, x = NaN) xs)
  ∧ (¬ Forall (λ x, x = NaN) xs → ∃ q, float_mean xs = Fin q).
Proof.
  intros Hfin. unfold float_mean.
  set (ys := filter (λ x, isnan x = false) xs).
  assert (Forall (λ x, ∃ q, x = Fin q) ys) as Hys.
  { apply Forall_forall. intros x [Hx Hin]%list_elem_of_filter.
    rewrite Forall_forall in Hfin. specialize (Hfin x Hin).
    destruct x as [q | b |]; [eauto | by destruct (Hfin b) | done]. }
  assert (ys = [] ↔ Forall (λ x, x = NaN) xs) as Hnil.
  { unfold ys. split.
    - intros Hnil. apply Forall_forall. intros x Hin.
      destruct (isnan x) eqn:Hx; [by destruct x |].
      assert (x ∈ filter (λ x, isnan x = false) xs) as Hf
        by by apply list_elem_of_filter.
      rewrite Hnil in Hf. by apply elem_of_nil in Hf.
    - intros Hall. apply filter_none. eapply Forall_impl; [done |].
      by intros x ->. }
  destruct ys as [| y ys'] eqn:Hy.
  - split; [by rewrite <- Hnil |]. intros Hnot. destruct Hnot. by apply Hnil.
  - destruct (float_sum_finite (y :: ys') 0%Qc Hys) as [q Hq].
    unfold float_sum. rewrite Hq. cbn [length float_div].
    rewrite bool_decide_eq_false_2 by apply count_nonzero.
    split; [| eauto]. split; [done |]. intros Hall. by apply Hnil in Hall.
Qed.


(** ** The properties above on the sample data *)

Lemma two_loaded_valid : 0 < length (heap two_loaded).
Proof. vm_compute. lia. Qed.

Lemma level_of_two_employees :
  0 < length (heap two_loaded)
  ∧ well_formed (heap two_loaded !!! 0)
  ∧ derive 0 two_loaded = (Ok (), two_derived)
  ∧ ∃ lv, getitem "Performance_Level" (heap two_derived !!! 0) = Ok lv
          ∧ lv = [Str (Word "High"); Str (Word "Low")].
Proof.
  pose proof two_loaded_valid as H1. pose proof two_loaded_well_formed as H2.
  assert (derive 0 two_loaded = (Ok (), two_derived)) as H3
    by (vm_compute; reflexivity).
  split; [exact H1 |]. split; [exact H2 |]. split; [exact H3 |].
  destruct (level_of_every_record 0 two_loaded two_derived H1 H2 H3)
    as (ss & lv & _ & _ & Hlv & _).
  exists lv. split; [exact Hlv |].
  assert (getitem "Performance_Level" (heap two_derived !!! 0)
          = Ok [Str (Word "High"); Str (Word "Low")]) as Hc by by_evaluation.
  rewrite Hc in Hlv. by injection Hlv.
Defined.

Lemma names_only_fails_untouched :
  0 < length (heap (ingest source_path (world_of names_only)).2)
  ∧ (derive 0 (ingest source_path (world_of names_only)).2).1
    = Raise (KeyError "ProjectsCompleted")
  ∧ fs (derive 0 (ingest source_path (world_of names_only)).2).2
    = fs (ingest source_path (world_of names_only)).2.
Proof.
  assert (0 < length (heap (ingest source_path (world_of names_only)).2)) as H1
    by (vm_compute; lia).
  assert ((derive 0 (ingest source_path (world_of names_only)).2).1
          = Raise (KeyError "ProjectsCompleted")) as H2 by by_evaluation.
  split; [exact H1 |]. split; [exact H2 |].
  exact (proj1 (derive_failure_modes 0 _ _ H1 H2)).
Defined.

Lemma names_only_misses_projects :
  0 < length (heap (ingest source_path (world_of names_only)).2)
  ∧ ("ProjectsCompleted" ∉ columns (heap (ingest source_path (world_of names_only)).2 !!! 0))
  ∧ derive 0 (ingest source_path (world_of names_only)).2
    = (Raise (KeyError "ProjectsCompleted"),
       (ingest source_path (world_of names_only)).2).
Proof.
  assert (0 < length (heap (ingest source_path (world_of names_only)).2)) as H1
    by (vm_compute; lia).
  assert ("ProjectsCompleted"
          ∉ columns (heap (ingest source_path (world_of names_only)).2 !!! 0)) as H2
    by by_evaluation.
  split; [exact H1 |]. split; [exact H2 |].
  exact (proj1 (derive_missing_column 0 _ H1) H2).
Defined.

Lemma projects_in_words_raise :
  0 < length (heap (ingest source_path (world_of projects_in_words)).2)
  ∧ derive 0 (ingest source_path (world_of projects_in_words)).2
    = (Raise TypeError, (ingest source_path (world_of projects_in_words)).2).
Proof.
  assert (0 < length (heap (ingest source_path (world_of projects_in_words)).2)) as H1
    by (vm_compute; lia).
  split; [exact H1 |].
  apply (derive_text_cell 0 _ [Str (Word "a few")] [Float (qc 1)] 0 (Word "a few") H1);
    [by_evaluation | by_evaluation | by left].
Defined.


Lemma one_high_performer_of_two :
  pipeline (world_of two_employees) = (Ok 0, two_stored)
  ∧ (get_metrics some_globals two_stored).1 = Ok two_metrics
  ∧ ∃ ss, getitem "PerformanceScore" (heap two_stored !!! 0) = Ok ss
          ∧ high_performers_count two_metrics
            = length (filter (λ v, scores_high v = true) ss).
Proof.
  assert (pipeline (world_of two_employees) = (Ok 0, two_stored)) as H1
    by (vm_compute; reflexivity).
  assert ((get_metrics some_globals two_stored).1 = Ok two_metrics) as H2
    by by_evaluation.
  split; [exact H1 |]. split; [exact H2 |].
  destruct (high_performers_counted some_globals _ _ _ _ H1 H2) as (ss & Hss & Hh & _).
  by exists ss.
Defined.

Lemma top_performer_of_two :
  top_performer_of two_table = Ok (Str (Word "A"))
  ∧ ∃ i names, getitem "Name" two_table = Ok names
               ∧ names !! i = Some (Str (Word "A")).
Proof.
  assert (top_performer_of two_table = Ok (Str (Word "A"))) as H by by_evaluation.
  split; [exact H |].
  destruct (top_performer_is_first_maximum _ _ H) as (i & ss & names & m & _ & Hn & Hi & _).
  by exists i, names.
Defined.




Lemma high_scorers_of_two :
  apply_filters (Str (Word "All")) (0, 2)%Z (qc 4, qc 5) two_table = Ok two_filtered
  ∧ frame_len two_filtered ≤ frame_len two_table.
Proof.
  assert (apply_filters (Str (Word "All")) (0, 2)%Z (qc 4, qc 5) two_table
          = Ok two_filtered) as H by by_evaluation.
  split; [exact H |].
  destruct (filtered_rows_pass _ _ _ _ _ H) as (_ & _ & Hlen & _). exact Hlen.
Defined.

Lemma high_scorers_filtered_again :
  apply_filters (Str (Word "All")) (0, 2)%Z (qc 4, qc 5) two_table = Ok two_filtered
  ∧ apply_filters (Str (Word "All")) (0, 2)%Z (qc 4, qc 5) two_filtered
    = Ok two_filtered.
Proof.
  assert (apply_filters (Str (Word "All")) (0, 2)%Z (qc 4, qc 5) two_table
          = Ok two_filtered) as H by by_evaluation.
  split; [exact H |]. exact (apply_filters_idempotent _ _ _ _ _ H).
Defined.

Lemma report_of_two :
  ∃ ops, export_to_pdf name_only_text (Str (Word "All")) two_table = Ok ops
         ∧ ShowPage ∉ ops.
Proof.
  destruct (export_to_pdf name_only_text (Str (Word "All")) two_table)
    as [ops | e] eqn:H; [| by vm_compute in H].
  exists ops. split; [reflexivity |].
  destruct (export_to_pdf_one_page name_only_text _ _ _ H) as (ss & _ & _ & _ & Hno & _).
  exact Hno.
Defined.

